(** * search-service: a shallow embedding of the fallback search gateway

    The development follows the layout of the repository:

    - [JsString]       JavaScript strings as sequences of UTF-16 code units;
    - [Js]             the few JavaScript values and operators the code uses
                       ([||] on optional numbers and strings, [parseInt]);
    - [Eff]            the effects of the service code: a trace of log lines
                       and engine calls, and exceptions with [try]/[catch];
    - [SearchService]  services/searchService.js;
    - [Validator]      middleware/validator.js over express-validator;
    - [Http]           controllers, middleware/errorHandler.js, routes and
                       the application wiring of index.js;
    - [Spec], [ValidationSpec], [HttpSpec]
                       what the specification expects, in its own words;
    - [Fixtures]       concrete engines and requests for the examples;
    - [Config]         config/meilisearch.js;
    - [Reading], [MoreFixtures]
                       what the later properties are stated with.

    Definitions come first, the theorems about them follow. *)

From Stdlib Require Import List ZArith NArith Bool String Ascii Lia.
Import ListNotations.

Set Implicit Arguments.
Set Warnings "-register-all".

(* ===================================================================== *)
(** ** JavaScript strings *)
(* ===================================================================== *)

Module JsString.

(** A JavaScript string is a sequence of 16-bit code units. *)
Definition t := list N.

(** An ASCII literal of the source, as code units. *)
Definition lit (s : string) : t := map N_of_ascii (list_ascii_of_string s).

Fixpoint eqb (a b : t) : bool :=
  match a, b with
  | [], [] => true
  | x :: a', y :: b' => N.eqb x y && eqb a' b'
  | _, _ => false
  end.

Definition is_empty (s : t) : bool :=
  match s with [] => true | _ :: _ => false end.

(** The class [\s] of ECMAScript regular expressions: white space and
    line terminators. *)
Definition is_space (c : N) : bool :=
  ((9 <=? c) && (c <=? 13)
   || (c =? 32) || (c =? 160) || (c =? 5760)
   || ((8192 <=? c) && (c <=? 8202))
   || (c =? 8232) || (c =? 8233) || (c =? 8239) || (c =? 8287)
   || (c =? 12288) || (c =? 65279))%N.

Fixpoint drop_while (p : N -> bool) (s : t) : t :=
  match s with
  | [] => []
  | c :: s' => if p c then drop_while p s' else s
  end.

(** validator.js [ltrim]: [str.replace(/^\s+/g, '')]. *)
Definition ltrim (s : t) : t := drop_while is_space s.

(** validator.js [rtrim]: step back from the last code unit while it is
    white space, then slice. *)
Definition rtrim (s : t) : t := rev (drop_while is_space (rev s)).

(** validator.js [trim]: [rtrim(ltrim(str))]. *)
Definition trim (s : t) : t := rtrim (ltrim s).

End JsString.

Definition jsstring : Type := JsString.t.

(** [js "text"]: the literal ["text"] of the source. *)
Definition js (s : string) : jsstring := JsString.lit s.
Arguments js s%_string.

(* ===================================================================== *)
(** ** JavaScript values and operators *)
(* ===================================================================== *)

Module Js.

(** A number as [parseInt] produces it: an integer or [NaN]. *)
Inductive Num :=
| NaN
| Int (z : Z).

(** JSON-like data: the opaque records of the engine and the bodies of
    the responses.  An object keeps its keys in insertion order. *)
Inductive Json :=
| JNull
| JBool (b : bool)
| JNum (n : Num)
| JStr (s : jsstring)
| JArr (items : list Json)
| JObj (fields : list (string * Json)).

(** An error object: the properties the code reads.  What is thrown is
    always such an object. *)
Record Error := mkError {
  message : jsstring;
  stack : jsstring;
  statusCode : option N;
  status : option N
}.

(** [a || b] where both may be [undefined]. *)
Definition or_opt (a b : option N) : option N :=
  match a with
  | Some n => if (n =? 0)%N then b else a
  | None => b
  end.

(** [a || b] for [a] a number or [undefined]: [a] when truthy. *)
Definition or_num (a : option N) (b : N) : N :=
  match a with
  | Some n => if (n =? 0)%N then b else n
  | None => b
  end.

(** [a || b] for [a] a string or [undefined]: the empty string is falsy. *)
Definition or_str (a : option jsstring) (b : jsstring) : jsstring :=
  match a with
  | Some ((_ :: _) as s) => s
  | _ => b
  end.

(** An array is truthy, also the empty one. *)
Definition truthy_array (A : Type) (_ : list A) : bool := true.

(** A parameter with a default value: the default replaces [undefined]. *)
Definition default (A : Type) (a : option A) (d : A) : A :=
  match a with Some x => x | None => d end.

Fixpoint take_while (p : N -> bool) (s : jsstring) : jsstring :=
  match s with
  | c :: s' => if p c then c :: take_while p s' else []
  | [] => []
  end.

Definition is_dec_digit (c : N) : bool := ((48 <=? c) && (c <=? 57))%N.

Definition is_hex_digit (c : N) : bool :=
  (is_dec_digit c || ((97 <=? c) && (c <=? 102)) || ((65 <=? c) && (c <=? 70)))%N.

Definition hex_digit_val (c : N) : Z :=
  (if is_dec_digit c then Z.of_N c - 48
   else if (97 <=? c)%N then Z.of_N c - 87
   else Z.of_N c - 55)%Z.

Definition radix_val (radix : Z) (s : jsstring) : Z :=
  fold_left (fun acc c => radix * acc + hex_digit_val c)%Z s 0%Z.

(** A leading sign: whether it is a minus, and the text after it. *)
Definition strip_sign (s : jsstring) : bool * jsstring :=
  match s with
  | c :: r => if (c =? 45)%N then (true, r)
              else if (c =? 43)%N then (false, r) else (false, s)
  | [] => (false, s)
  end.

(** A leading ["0x"] or ["0X"] selects radix 16. *)
Definition strip_radix (s : jsstring) : Z * jsstring :=
  match s with
  | c0 :: c1 :: r =>
      if ((c0 =? 48) && ((c1 =? 120) || (c1 =? 88)))%N then (16%Z, r) else (10%Z, s)
  | _ => (10%Z, s)
  end.

Definition is_radix_digit (radix : Z) (c : N) : bool :=
  if (radix =? 16)%Z then is_hex_digit c else is_dec_digit c.

(** [parseInt(string)] without a radix: leading white space is skipped,
    a sign is read, ["0x"] selects radix 16, then the longest run of
    digits is the number; [NaN] when that run is empty.  The integer is
    kept exact (a double rounds it above 2^53). *)
Definition parseInt (input : jsstring) : Num :=
  let '(negative, s) := strip_sign (JsString.ltrim input) in
  let '(radix, s) := strip_radix s in
  match take_while (is_radix_digit radix) s with
  | [] => NaN
  | digits => Int (if negative then - radix_val radix digits
                   else radix_val radix digits)%Z
  end.

End Js.

(* ===================================================================== *)
(** ** Effects: logging, engine calls, exceptions *)
(* ===================================================================== *)

Module Eff.

Inductive Level := Debug | Info | Warn | Err.

(** What the service does to the outside, in the order it does it. *)
Inductive Event :=
| Log (lvl : Level) (msg : string)
| SearchCall (index query : jsstring) (limit offset : Js.Num)
| HealthCall.

Definition Trace := list Event.

(** A computation extends the trace and returns or throws.  The trace
    survives a throw: what was logged stays logged. *)
Definition M (A : Type) := Trace -> (Js.Error + A) * Trace.

Definition ret (A : Type) (a : A) : M A := fun tr => (inr a, tr).

Definition bind (A B : Type) (m : M A) (k : A -> M B) : M B :=
  fun tr =>
    match m tr with
    | (inr a, tr') => k a tr'
    | (inl e, tr') => (inl e, tr')
    end.

Definition throw (A : Type) (e : Js.Error) : M A := fun tr => (inl e, tr).
Arguments throw {A} e.

(** [try { body } catch (e) { handler e }]. *)
Definition try_catch (A : Type) (body : M A) (handler : Js.Error -> M A) : M A :=
  fun tr =>
    match body tr with
    | (inr a, tr') => (inr a, tr')
    | (inl e, tr') => handler e tr'
    end.

Definition emit (ev : Event) : M unit := fun tr => (inr tt, tr ++ [ev]).

Definition log (lvl : Level) (msg : string) : M unit := emit (Log lvl msg).

(** Awaiting a call of the engine client: the call is recorded, then its
    outcome is returned or thrown. *)
Definition await (A : Type) (ev : Event) (outcome : Js.Error + A) : M A :=
  fun tr => (outcome, tr ++ [ev]).

Definition is_search (ev : Event) : bool :=
  match ev with SearchCall _ _ _ _ => true | _ => false end.

(** The engine search calls of a trace, oldest first. *)
Definition searches (tr : Trace) : Trace := filter is_search tr.

End Eff.

Declare Scope eff_scope.
Delimit Scope eff_scope with eff.
Notation "x <- m ;; k" := (Eff.bind m (fun x => k))
  (at level 61, m at next level, right associativity) : eff_scope.
Notation "m ;; k" := (Eff.bind m (fun _ => k))
  (at level 61, right associativity) : eff_scope.

(* ===================================================================== *)
(** ** services/searchService.js *)
(* ===================================================================== *)

Module SearchService.
Import Js Eff.
Local Open Scope eff_scope.

(** A hit is an opaque record of the engine. *)
Definition Hit := Json.

(** The engine's answer to a search with [limit] and [offset].  [hits] is
    always an array; [estimatedTotalHits] is a number or missing. *)
Record SearchResponse := mkResponse {
  hits : list Hit;
  estimatedTotalHits : option N;
  processingTimeMs : N
}.

Record HealthInfo := mkHealth { health_status : jsstring }.

(** The engine client of config/meilisearch.js: one long-lived handle. *)
Record Client := mkClient {
  search_index : jsstring -> jsstring -> Num -> Num -> Error + SearchResponse;
  health : Error + HealthInfo
}.

(** The environment variables the service reads. *)
Record Env := mkEnv {
  env_GLOBAL_INDEX : option jsstring;
  env_LOCAL_INDEX_PREFIX : option jsstring;
  env_NODE_ENV : option jsstring
}.

Definition GLOBAL_INDEX (env : Env) : jsstring :=
  or_str (env_GLOBAL_INDEX env) (js "colmado_inventory").

Definition LOCAL_INDEX_PREFIX (env : Env) : jsstring :=
  or_str (env_LOCAL_INDEX_PREFIX env) (js "productos_colmado_").

Inductive Source := Local | Global.

Record SearchResult := mkResult {
  source : Source;
  indexName : jsstring;
  res_hits : list Hit;
  total : N;
  res_query : jsstring;
  res_limit : Num;
  res_offset : Num;
  res_processingTimeMs : N
}.

Definition hits_length (r : SearchResponse) : N := N.of_nat (List.length (hits r)).

(** [results.estimatedTotalHits || results.hits.length] *)
Definition totalHits (r : SearchResponse) : N :=
  or_num (estimatedTotalHits r) (hits_length r).

Section WithClient.
Variable env : Env.
Variable meilisearchClient : Client.

(** [meilisearchClient.index(name).search(query, { limit, offset })] *)
Definition index_search (name query : jsstring) (limit offset : Num)
  : M SearchResponse :=
  await (SearchCall name query limit offset)
        (search_index meilisearchClient name query limit offset).

(** The inner [try] either returns a result to the caller ([Some]) or
    falls through to the global search ([None]). *)
Definition searchLocal (localIndexName query : jsstring) (limit offset : Num)
  : M (option SearchResult) :=
  try_catch
    (localResults <- index_search localIndexName query limit offset ;;
     log Info "Local search completed" ;;
     if truthy_array (hits localResults) && (0 <? hits_length localResults)%N
     then ret (Some {| source := Local;
                       indexName := localIndexName;
                       res_hits := hits localResults;
                       total := totalHits localResults;
                       res_query := query;
                       res_limit := limit;
                       res_offset := offset;
                       res_processingTimeMs := processingTimeMs localResults |})
     else
       log Info "No results in local index, falling back to global" ;;
       ret None)
    (fun localError =>
       log Warn "Local index search failed, falling back to global" ;;
       ret None).

Definition searchGlobal (query : jsstring) (limit offset : Num)
  : M SearchResult :=
  globalResults <- index_search (GLOBAL_INDEX env) query limit offset ;;
  log Info "Global search completed" ;;
  ret {| source := Global;
         indexName := GLOBAL_INDEX env;
         res_hits := hits globalResults;
         total := totalHits globalResults;
         res_query := query;
         res_limit := limit;
         res_offset := offset;
         res_processingTimeMs := processingTimeMs globalResults |}.

Definition searchWithFallback (query slug : jsstring)
           (limit_arg offset_arg : option Num) : M SearchResult :=
  let limit := default limit_arg (Int 20) in
  let offset := default offset_arg (Int 0) in
  let localIndexName := LOCAL_INDEX_PREFIX env ++ slug in
  log Info "Search request" ;;
  try_catch
    (found <- searchLocal localIndexName query limit offset ;;
     match found with
     | Some result => ret result
     | None => searchGlobal query limit offset
     end)
    (fun error =>
       log Err "Search failed" ;;
       throw error).

(** What [healthCheck] returns: one of two shapes. *)
Inductive HealthStatus :=
| Healthy (meilisearch : HealthInfo)
| Unhealthy (error : jsstring).

Definition healthCheck : M HealthStatus :=
  try_catch
    (h <- await HealthCall (health meilisearchClient) ;;
     log Debug "Meilisearch health check" ;;
     ret (Healthy h))
    (fun error =>
       log Err "Meilisearch health check failed" ;;
       ret (Unhealthy (message error))).

End WithClient.

End SearchService.

(* ===================================================================== *)
(** ** middleware/validator.js, over express-validator 7 and validator.js

    The library is not part of the repository.  Its behaviour is written
    out here as its documentation gives it: the items of a chain run in
    the order they were added; every validator that fails records one
    error and the chain goes on (no [bail] is used); a sanitizer replaces
    the value of the field in the request; [optional()] skips the chain
    while the value is [undefined]. *)
(* ===================================================================== *)

Module Validator.
Import Js.

(** The value of a body field.  [None] stands for [undefined] (the key
    is missing).  A number is kept as the text [String(n)] gives for it
    ([5] as ["5"], [1.5] as ["1.5"], [1e21] as ["1e+21"]): the code
    reads a number through that text only.  Arrays and objects as field
    values are outside this model. *)
Inductive Value :=
| VNull
| VBool (b : bool)
| VNumber (text : jsstring)
| VString (s : jsstring).

Inductive Field := Fquery | Fslug | Flimit | Foffset.

Definition field_path (f : Field) : string :=
  match f with
  | Fquery => "query" | Fslug => "slug" | Flimit => "limit" | Foffset => "offset"
  end.

Definition field_eqb (f g : Field) : bool :=
  match f, g with
  | Fquery, Fquery | Fslug, Fslug | Flimit, Flimit | Foffset, Foffset => true
  | _, _ => false
  end.

(** [req.body], as far as the service reads it. *)
Record Body := mkBody {
  query : option Value;
  slug : option Value;
  limit : option Value;
  offset : option Value
}.

Definition get (f : Field) (b : Body) : option Value :=
  match f with
  | Fquery => query b | Fslug => slug b | Flimit => limit b | Foffset => offset b
  end.

Definition set (f : Field) (v : option Value) (b : Body) : Body :=
  match f with
  | Fquery => mkBody v (slug b) (limit b) (offset b)
  | Fslug => mkBody (query b) v (limit b) (offset b)
  | Flimit => mkBody (query b) (slug b) v (offset b)
  | Foffset => mkBody (query b) (slug b) (limit b) v
  end.

(** express-validator's [toString]: [null] and [undefined] become the
    empty string, the rest goes through [String]. *)
Definition toString (v : option Value) : jsstring :=
  match v with
  | None | Some VNull => []
  | Some (VBool true) => js "true"
  | Some (VBool false) => js "false"
  | Some (VNumber text) => text
  | Some (VString s) => s
  end.

(** [typeof value === 'string'] *)
Definition is_string (v : option Value) : bool :=
  match v with Some (VString _) => true | _ => false end.

(** *** validator.js *)

(** [isEmpty(str)]: [str.length === 0]. *)
Definition isEmpty (s : jsstring) : bool := JsString.is_empty s.

Definition is_digit (c : N) : bool := ((48 <=? c) && (c <=? 57))%N.

(** The class [[a-z0-9_-]]. *)
Definition slug_char (c : N) : bool :=
  ((97 <=? c) && (c <=? 122))%N || is_digit c || (c =? 95)%N || (c =? 45)%N.

(** [matches(str, /^[a-z0-9_-]+$/)] *)
Definition matches_slug (s : jsstring) : bool :=
  negb (JsString.is_empty s) && forallb slug_char s.

Definition is_sign (c : N) : bool := (c =? 45)%N || (c =? 43)%N.

Definition all_digits1 (s : jsstring) : bool :=
  negb (JsString.is_empty s) && forallb is_digit s.

(** The pattern [/^[-+]?[0-9]+$/] of [isInt] (leading zeroes allowed). *)
Definition int_pattern (s : jsstring) : bool :=
  match s with
  | c :: r => if is_sign c then all_digits1 r else all_digits1 s
  | [] => false
  end.

Definition digit_val (c : N) : Z := (Z.of_N c - 48)%Z.

Definition digits_val (s : jsstring) : Z :=
  fold_left (fun acc c => 10 * acc + digit_val c)%Z s 0%Z.

(** The number a string admitted by [int_pattern] converts to when it is
    compared with a bound. *)
Definition int_value (s : jsstring) : Z :=
  match s with
  | c :: r =>
      if (c =? 45)%N then (- digits_val r)%Z
      else if (c =? 43)%N then digits_val r
      else digits_val s
  | [] => 0%Z
  end.

(** [isInt(str, { min, max })]: the pattern holds and the number is
    within the bounds that are given. *)
Definition isInt (min max : option Z) (s : jsstring) : bool :=
  int_pattern s
  && match min with Some m => (m <=? int_value s)%Z | None => true end
  && match max with Some m => (int_value s <=? m)%Z | None => true end.

(** *** express-validator chains *)

Inductive ContextItem :=
| CustomValidation (validator : option Value -> bool) (message : option string)
| StandardValidation (validator : jsstring -> bool) (negated : bool)
                     (message : option string)
| Sanitization (sanitizer : jsstring -> jsstring).

Record Chain := mkChain {
  chain_field : Field;
  chain_optional : bool;
  chain_stack : list ContextItem
}.

Definition body (f : Field) : Chain := mkChain f false [].

Definition addItem (it : ContextItem) (c : Chain) : Chain :=
  mkChain (chain_field c) (chain_optional c) (chain_stack c ++ [it]).

Definition isString : Chain -> Chain :=
  addItem (CustomValidation is_string None).
Definition trim : Chain -> Chain :=
  addItem (Sanitization JsString.trim).
Definition notEmpty : Chain -> Chain :=
  addItem (StandardValidation isEmpty true None).
Definition matches (pattern : jsstring -> bool) : Chain -> Chain :=
  addItem (StandardValidation pattern false None).
Definition isIntRange (min max : option Z) : Chain -> Chain :=
  addItem (StandardValidation (isInt min max) false None).
Definition optional (c : Chain) : Chain :=
  mkChain (chain_field c) true (chain_stack c).

(** [withMessage] sets the message of the validator added last. *)
Fixpoint set_last_message (m : string) (rev_stack : list ContextItem)
  : list ContextItem :=
  match rev_stack with
  | [] => []
  | CustomValidation v _ :: r => CustomValidation v (Some m) :: r
  | StandardValidation v n _ :: r => StandardValidation v n (Some m) :: r
  | Sanitization s :: r => Sanitization s :: set_last_message m r
  end.

Definition withMessage (m : string) (c : Chain) : Chain :=
  mkChain (chain_field c) (chain_optional c)
          (rev (set_last_message m (rev (chain_stack c)))).

(** One entry of [validationResult(req).array()]. *)
Record ValidationError := mkVError { path : string; msg : string }.

Definition error_for (f : Field) (message : option string) : ValidationError :=
  mkVError (field_path f)
           (match message with Some m => m | None => "Invalid value"%string end).

(** One item on the current value of the field: the value it leaves and
    the errors it adds. *)
Definition run_item (f : Field) (it : ContextItem) (v : option Value)
  : option Value * list ValidationError :=
  match it with
  | CustomValidation validator message =>
      (v, if validator v then [] else [error_for f message])
  | StandardValidation validator negated message =>
      let result := validator (toString v) in
      (v, if (if negated then result else negb result)
          then [error_for f message] else [])
  | Sanitization sanitizer =>
      (Some (VString (sanitizer (toString v))), [])
  end.

Definition is_undefined (v : option Value) : bool :=
  match v with None => true | Some _ => false end.

Fixpoint run_stack (f : Field) (opt : bool) (stack : list ContextItem)
         (v : option Value) : option Value * list ValidationError :=
  match stack with
  | [] => (v, [])
  | it :: rest =>
      if opt && is_undefined v then run_stack f opt rest v
      else
        let '(v', errs) := run_item f it v in
        let '(v'', errs') := run_stack f opt rest v' in
        (v'', errs ++ errs')
  end.

(** Running a chain as a middleware: the field ends up with the value
    the sanitizers left, and the errors are kept for [validationResult]. *)
Definition run_chain (c : Chain) (b : Body) : Body * list ValidationError :=
  let '(v, errs) :=
    run_stack (chain_field c) (chain_optional c) (chain_stack c)
              (get (chain_field c) b) in
  (set (chain_field c) v b, errs).

Fixpoint run_chains (cs : list Chain) (b : Body) : Body * list ValidationError :=
  match cs with
  | [] => (b, [])
  | c :: rest =>
      let '(b', errs) := run_chain c b in
      let '(b'', errs') := run_chains rest b' in
      (b'', errs ++ errs')
  end.

(** *** The rules of the search endpoint *)

(** Method chaining: [c |> f] is [c.f()]. *)
Local Notation "c |> f" := (f c) (at level 50, left associativity, only parsing).

Definition searchValidationRules : list Chain :=
  [ body Fquery
      |> isString
      |> trim
      |> notEmpty
      |> withMessage "Query is required and must be a non-empty string";
    body Fslug
      |> isString
      |> trim
      |> notEmpty
      |> withMessage "Slug is required and must be a non-empty string"
      |> matches matches_slug
      |> withMessage "Slug must contain only lowercase letters, numbers, hyphens and underscores";
    body Flimit
      |> optional
      |> isIntRange (Some 1%Z) (Some 100%Z)
      |> withMessage "Limit must be an integer between 1 and 100";
    body Foffset
      |> optional
      |> isIntRange (Some 0%Z) None
      |> withMessage "Offset must be a non-negative integer" ].

(** [validationResult(req)] after the rules have run as middlewares:
    the request as the sanitizers left it, and the errors of all chains. *)
Definition validationResult (b : Body) : Body * list ValidationError :=
  run_chains searchValidationRules b.

End Validator.

(* ===================================================================== *)
(** ** The HTTP layer: controllers, error handlers, routes, application *)
(* ===================================================================== *)

Module Http.
Import Js Eff SearchService Validator.
Local Open Scope eff_scope.

Record Response := mkHttp { http_status : N; http_body : Json }.

(** [res.json(body)] answers with status 200 unless [res.status] was
    called before. *)
Definition json (body : Json) : Response := mkHttp 200 body.

(** What a route handler ends with: a response, or [next(err)]. *)
Inductive Handled :=
| Sent (r : Response)
| NextErr (err : Error).

(** *** Objects *)

Fixpoint obj_set (k : string) (v : Json) (fields : list (string * Json))
  : list (string * Json) :=
  match fields with
  | [] => [(k, v)]
  | (k', v') :: rest =>
      if String.eqb k k' then (k, v) :: rest else (k', v') :: obj_set k v rest
  end.

(** [{ ...fields, ...more }] *)
Definition spread (fields more : list (string * Json)) : list (string * Json) :=
  fold_left (fun acc kv => obj_set (fst kv) (snd kv) acc) more fields.

Fixpoint obj_get (k : string) (fields : list (string * Json)) : option Json :=
  match fields with
  | [] => None
  | (k', v) :: rest => if String.eqb k k' then Some v else obj_get k rest
  end.

(** [body.k], [undefined] when [body] is no object or has no such key. *)
Definition prop (k : string) (body : Json) : option Json :=
  match body with JObj fields => obj_get k fields | _ => None end.

Definition num (n : N) : Json := JNum (Int (Z.of_N n)).

(** *** middleware/validator.js: [validate] *)

Definition error_entry (err : ValidationError) : Json :=
  JObj [("field", JStr (js (path err))); ("message", JStr (js (msg err)))]%string.

(** [None] is [next()]. *)
Definition validate (errors : list ValidationError) : option Response :=
  if negb (match errors with [] => true | _ => false end)
  then Some (mkHttp 400 (JObj [("success", JBool false);
                               ("errors", JArr (map error_entry errors))]%string))
  else None.

(** *** controllers/searchController.js *)

(** [String(v)], as a template literal applies it. *)
Definition String_of (v : option Value) : jsstring :=
  match v with
  | None => js "undefined"
  | Some VNull => js "null"
  | Some (VBool true) => js "true"
  | Some (VBool false) => js "false"
  | Some (VNumber text) => text
  | Some (VString s) => s
  end.

Definition source_name (s : Source) : jsstring :=
  match s with Local => js "local" | Global => js "global" end.

(** The object [searchWithFallback] returns. *)
Definition result_json (r : SearchResult) : Json :=
  JObj [("source", JStr (source_name (source r)));
        ("indexName", JStr (indexName r));
        ("hits", JArr (res_hits r));
        ("total", num (total r));
        ("query", JStr (res_query r));
        ("limit", JNum (res_limit r));
        ("offset", JNum (res_offset r));
        ("processingTimeMs", num (res_processingTimeMs r))]%string.

Section WithService.
Variable env : Env.
Variable meilisearchClient : Client.
(** [new Date().toISOString()] at the time of the request. *)
Variable now : jsstring.

(** [search(req, res, next)].  The validator has left [query] and
    [slug] strings by the time the controller runs; any other value
    would reach the index name through [String]. *)
Definition search (b : Body) : M Handled :=
  try_catch
    (let query := String_of (Validator.query b) in
     let slug := String_of (Validator.slug b) in
     let limit := default (Validator.limit b) (VNumber (js "20")) in
     let offset := default (Validator.offset b) (VNumber (js "0")) in
     log Info "Processing search request" ;;
     result <- searchWithFallback env meilisearchClient query slug
                 (Some (parseInt (String_of (Some limit))))
                 (Some (parseInt (String_of (Some offset)))) ;;
     ret (Sent (json (JObj [("success", JBool true);
                            ("data", result_json result)]%string))))
    (fun error => ret (NextErr error)).

Definition status_of (h : HealthStatus) : jsstring :=
  match h with Healthy _ => js "healthy" | Unhealthy _ => js "unhealthy" end.

(** The object [healthCheck] returns. *)
Definition health_fields (h : HealthStatus) : list (string * Json) :=
  match h with
  | Healthy m =>
      [("status", JStr (status_of h));
       ("meilisearch", JObj [("status", JStr (health_status m))])]
  | Unhealthy e =>
      [("status", JStr (status_of h)); ("error", JStr e)]
  end%string.

(** The [try] block of [health]. *)
Definition health_try : M Response :=
  healthStatus <- healthCheck meilisearchClient ;;
  let healthy := JsString.eqb (status_of healthStatus) (js "healthy") in
  let statusCode := (if healthy then 200 else 503)%N in
  ret (mkHttp statusCode
         (JObj (spread [("success", JBool healthy);
                        ("service", JStr (js "search-service"));
                        ("timestamp", JStr now)]%string
                       (health_fields healthStatus)))).

(** The [catch] block of [health]. *)
Definition health_catch (error : Error) : M Response :=
  log Err "Health check failed" ;;
  ret (mkHttp 503
         (JObj [("success", JBool false);
                ("service", JStr (js "search-service"));
                ("status", JStr (js "unhealthy"));
                ("error", JStr (message error));
                ("timestamp", JStr now)]%string)).

(** [health(req, res)] *)
Definition health : M Response := try_catch health_try health_catch.

(** *** middleware/errorHandler.js *)

(** [process.env.NODE_ENV === 'production'] *)
Definition production : bool :=
  match env_NODE_ENV env with
  | Some v => JsString.eqb v (js "production")
  | None => false
  end.

Definition errorHandler (err : Error) : M Response :=
  log Err "Error processing request" ;;
  let statusCode := or_num (or_opt (statusCode err) (status err)) 500 in
  ret (mkHttp statusCode
         (JObj [("success", JBool false);
                ("error",
                 JObj (spread
                         [("message",
                           JStr (if production then js "Internal server error"
                                 else message err))]
                         (if negb production
                          then [("stack", JStr (stack err))] else [])))]%string)).

(** The request path as text: its segments, each after a slash. *)
Definition path_text (segments : list string) : jsstring :=
  match segments with
  | [] => js "/"
  | _ => flat_map (fun seg => js "/" ++ js seg) segments
  end.

Definition notFoundHandler (path : list string) : M Response :=
  log Warn "404 Not Found" ;;
  ret (mkHttp 404
         (JObj [("success", JBool false);
                ("error", JObj [("message", JStr (js "Route not found"));
                                ("path", JStr (path_text path))])]%string)).

(** *** routes/index.js *)

(** [HEAD] and [OPTIONS], which Express and [cors()] answer on their own,
    are not among the other methods. *)
Inductive Method := GET | POST | OtherMethod.

(** A request: its method, the segments of its path as the router
    compares them (Express ignores case and a trailing slash), and its
    parsed body. *)
Record Request := mkRequest {
  req_method : Method;
  req_path : list string;
  req_body : Body
}.

(** [router.post('/search', searchValidationRules(), validate, search)] *)
Definition post_search (b : Body) : M Handled :=
  let '(b', errors) := validationResult b in
  match validate errors with
  | Some response => ret (Sent response)
  | None => search b'
  end.

(** The router: the handler of the route that matches the method and
    the path below the mount point, [None] when no route does. *)
Definition routes (m : Method) (path : list string) (b : Body)
  : option (M Handled) :=
  match m, path with
  | POST, ["search"%string] => Some (post_search b)
  | GET, ["health"%string] => Some (r <- health ;; ret (Sent r))
  | _, _ => None
  end.

(** *** index.js *)

Definition banner : Response :=
  json (JObj [("service", JStr (js "NeoColmado Search Gateway"));
              ("version", JStr (js "1.0.0"));
              ("status", JStr (js "running"));
              ("endpoints",
               JObj [("search", JStr (js "POST /api/v1/search"));
                     ("health", JStr (js "GET /health"))])]%string).

(** What is left of [path] below the mount point [mount]. *)
Fixpoint below (mount path : list string) : option (list string) :=
  match mount, path with
  | [], _ => Some path
  | m :: mount', p :: path' =>
      if String.eqb m p then below mount' path' else None
  | _ :: _, [] => None
  end.

(** [app.use(mount, routes)] *)
Definition use_routes (mount : list string) (req : Request)
  : option (M Handled) :=
  match below mount (req_path req) with
  | Some rest => routes (req_method req) rest (req_body req)
  | None => None
  end.

(** A route handler, and the global error handler behind it. *)
Definition finish (h : M Handled) : M Response :=
  r <- h ;;
  match r with
  | Sent response => ret response
  | NextErr err => errorHandler err
  end.

(** The application: the middlewares in the order of [index.js]. *)
Definition app (req : Request) : M Response :=
  log Info "Incoming request" ;;
  match req_method req, req_path req with
  | GET, [] => ret banner
  | _, _ =>
      match use_routes ["api"; "v1"]%string req with
      | Some h => finish h
      | None =>
          match use_routes ["health"%string] req with
          | Some h => finish h
          | None => notFoundHandler (req_path req)
          end
      end
  end.

End WithService.

End Http.

(* ===================================================================== *)
(** ** What the specification expects, in its own words *)
(* ===================================================================== *)

Module Spec.
Import Js Eff SearchService.

(** The arguments the engine is called with: the defaults of
    [searchWithFallback] filled in. *)
Definition limit_of (limit_arg : option Num) : Num := default limit_arg (Int 20).
Definition offset_of (offset_arg : option Num) : Num := default offset_arg (Int 0).

(** The outcome of the call on the tenant's index. *)
Definition local_outcome (env : Env) (c : Client) (query slug : jsstring)
           (limit offset : option Num) : Error + SearchResponse :=
  search_index c (LOCAL_INDEX_PREFIX env ++ slug) query
               (limit_of limit) (offset_of offset).

(** The outcome of the call on the global index. *)
Definition global_outcome (env : Env) (c : Client) (query : jsstring)
           (limit offset : option Num) : Error + SearchResponse :=
  search_index c (GLOBAL_INDEX env) query (limit_of limit) (offset_of offset).

(** The result built from an answer of the tenant's index. *)
Definition local_result (env : Env) (query slug : jsstring)
           (l o : option Num) (r : SearchResponse) : SearchResult :=
  {| source := Local;
     indexName := LOCAL_INDEX_PREFIX env ++ slug;
     res_hits := hits r;
     total := totalHits r;
     res_query := query;
     res_limit := limit_of l;
     res_offset := offset_of o;
     res_processingTimeMs := processingTimeMs r |}.

(** The result built from an answer of the global index. *)
Definition global_result (env : Env) (query : jsstring)
           (l o : option Num) (g : SearchResponse) : SearchResult :=
  {| source := Global;
     indexName := GLOBAL_INDEX env;
     res_hits := hits g;
     total := totalHits g;
     res_query := query;
     res_limit := limit_of l;
     res_offset := offset_of o;
     res_processingTimeMs := processingTimeMs g |}.

(** The local call failed, or succeeded with no hit. *)
Definition no_local_hit (o : Error + SearchResponse) : Prop :=
  match o with
  | inl _ => True
  | inr r => hits r = []
  end.

(** "The engine's estimated-total-hits field when that field is present,
    and otherwise the length of the returned hits array." *)
Definition total_as_claimed (r : SearchResponse) : N :=
  match estimatedTotalHits r with
  | Some n => n
  | None => hits_length r
  end.

(** Two answers of the engine that differ at most in the time they took
    (or are both failures). *)
Definition same_data (a b : Error + SearchResponse) : Prop :=
  match a, b with
  | inr x, inr y =>
      hits x = hits y /\ estimatedTotalHits x = estimatedTotalHits y
  | inl _, inl _ => True
  | _, _ => False
  end.

(** Two outcomes of [searchWithFallback] that agree on everything but the
    processing time. *)
Definition same_result (a b : Error + SearchResult) : Prop :=
  match a, b with
  | inr x, inr y =>
      source x = source y /\ indexName x = indexName y
      /\ res_hits x = res_hits y /\ total x = total y
  | inl _, inl _ => True
  | _, _ => False
  end.

End Spec.

(* ===================================================================== *)
(** ** What the specification expects of request validation *)
(* ===================================================================== *)

Module ValidationSpec.
Import Js Validator.

(** The characters of the class [[a-z0-9_-]], listed. *)
Definition slug_alphabet : jsstring := js "abcdefghijklmnopqrstuvwxyz0123456789_-".

(** The decimal digits with their values. *)
Definition digit_table : list (N * Z) :=
  combine (js "0123456789") [0; 1; 2; 3; 4; 5; 6; 7; 8; 9]%Z.

Definition digit_of (c : N) (d : Z) : Prop := In (c, d) digit_table.

(** A run of one or more decimal digits and the number it denotes. *)
Inductive digits_of : jsstring -> Z -> Prop :=
| digits_one c d : digit_of c d -> digits_of [c] d
| digits_more s z c d :
    digits_of s z -> digit_of c d -> digits_of (s ++ [c]) (10 * z + d)%Z.

(** A text that is an integer: an optional sign, then digits only. *)
Inductive integer_text : jsstring -> Z -> Prop :=
| integer_plain s z : digits_of s z -> integer_text s z
| integer_plus s z : digits_of s z -> integer_text (js "+" ++ s) z
| integer_minus s z : digits_of s z -> integer_text (js "-" ++ s) (- z)%Z.

(** The text of a value that can be read as a number: a string or a
    number has one, [null] and the booleans have none. *)
Definition text_of (v : Value) : option jsstring :=
  match v with
  | VString s => Some s
  | VNumber text => Some text
  | VNull | VBool _ => None
  end.

(** "parses as an integer" *)
Definition parses_as (v : Value) (z : Z) : Prop :=
  exists text, text_of v = Some text /\ integer_text text z.

(** "query is a string that is non-empty after trimming" *)
Definition query_valid (v : option Value) : Prop :=
  exists s, v = Some (VString s) /\ JsString.trim s <> [].

(** "slug is a string that after trimming is non-empty and matches
    [a-z0-9_-]+ exactly" *)
Definition slug_valid (v : option Value) : Prop :=
  exists s, v = Some (VString s)
            /\ JsString.trim s <> []
            /\ Forall (fun c => In c slug_alphabet) (JsString.trim s).

(** "limit, if present, parses as an integer in [1,100]" *)
Definition limit_valid (v : option Value) : Prop :=
  match v with
  | None => True
  | Some x => exists z, parses_as x z /\ (1 <= z <= 100)%Z
  end.

(** "offset, if present, parses as an integer >= 0" *)
Definition offset_valid (v : option Value) : Prop :=
  match v with
  | None => True
  | Some x => exists z, parses_as x z /\ (0 <= z)%Z
  end.


(** "validation accepts exactly when ..." *)
Definition accepted (b : Body) : Prop :=
  query_valid (query b) /\ slug_valid (slug b)
  /\ limit_valid (limit b) /\ offset_valid (offset b).


(** The errors each chain of the rules records, check by check. *)
Definition query_errors (v : option Value) : list ValidationError :=
  (if is_string v then [] else [mkVError "query" "Invalid value"])
  ++ (if isEmpty (JsString.trim (toString v))
      then [mkVError "query" "Query is required and must be a non-empty string"]
      else []).

Definition slug_errors (v : option Value) : list ValidationError :=
  (if is_string v then [] else [mkVError "slug" "Invalid value"])
  ++ (if isEmpty (JsString.trim (toString v))
      then [mkVError "slug" "Slug is required and must be a non-empty string"]
      else [])
  ++ (if matches_slug (JsString.trim (toString v)) then []
      else [mkVError "slug"
              "Slug must contain only lowercase letters, numbers, hyphens and underscores"]).

Definition limit_errors (v : option Value) : list ValidationError :=
  match v with
  | None => []
  | Some _ =>
      if isInt (Some 1%Z) (Some 100%Z) (toString v) then []
      else [mkVError "limit" "Limit must be an integer between 1 and 100"]
  end.

Definition offset_errors (v : option Value) : list ValidationError :=
  match v with
  | None => []
  | Some _ =>
      if isInt (Some 0%Z) None (toString v) then []
      else [mkVError "offset" "Offset must be a non-negative integer"]
  end.

(** The request as the sanitizers leave it. *)
Definition sanitized (b : Body) : Body :=
  mkBody (Some (VString (JsString.trim (toString (query b)))))
         (Some (VString (JsString.trim (toString (slug b)))))
         (limit b) (offset b).

End ValidationSpec.

(* ===================================================================== *)
(** ** The answers the specification lists for the HTTP interface *)
(* ===================================================================== *)

Module HttpSpec.
Import Js SearchService Http.

(** 200, [{success:true, service, status:"healthy", meilisearch:{status},
    timestamp}], the keys in the order the handler writes them. *)
Definition healthy_response (now : jsstring) (h : HealthInfo) : Response :=
  mkHttp 200
    (JObj [("success", JBool true);
           ("service", JStr (js "search-service"));
           ("timestamp", JStr now);
           ("status", JStr (js "healthy"));
           ("meilisearch", JObj [("status", JStr (health_status h))])]%string).

(** 503, [{success:false, service, status:"unhealthy", error, timestamp}]. *)
Definition unhealthy_response (now error : jsstring) : Response :=
  mkHttp 503
    (JObj [("success", JBool false);
           ("service", JStr (js "search-service"));
           ("timestamp", JStr now);
           ("status", JStr (js "unhealthy"));
           ("error", JStr error)]%string).

(** 404 with the requested path echoed. *)
Definition not_found_response (path : jsstring) : Response :=
  mkHttp 404
    (JObj [("success", JBool false);
           ("error", JObj [("message", JStr (js "Route not found"));
                           ("path", JStr path)])]%string).

(** The body of an error answer that carries the generic message only. *)
Definition generic_error_body : Json :=
  JObj [("success", JBool false);
        ("error", JObj [("message", JStr (js "Internal server error"))])]%string.

(** The body of an error answer with the message and the stack of the error. *)
Definition detailed_error_body (err : Error) : Json :=
  JObj [("success", JBool false);
        ("error", JObj [("message", JStr (message err));
                        ("stack", JStr (stack err))])]%string.

(** The paging arguments the controller hands to [searchWithFallback]:
    [parseInt] of the field, or of its default. *)
Definition forwarded_limit (b : Validator.Body) : Num :=
  parseInt (String_of (Some (default (Validator.limit b)
                                     (Validator.VNumber (js "20"))))).

Definition forwarded_offset (b : Validator.Body) : Num :=
  parseInt (String_of (Some (default (Validator.offset b)
                                     (Validator.VNumber (js "0"))))).

(** The requests of the health probe and of the search. *)
Definition get_request (path : list string) : Request :=
  mkRequest GET path (Validator.mkBody None None None None).

Definition search_request (b : Validator.Body) : Request :=
  mkRequest POST ["api"; "v1"; "search"]%string b.

End HttpSpec.

(* ===================================================================== *)
(** ** Concrete engines and requests, for the examples *)
(* ===================================================================== *)

Module Fixtures.
Import Js Eff SearchService.

(** No variable set: the defaults of the source apply. *)
Definition env_default : Env := mkEnv None None None.


Definition arroz : Hit :=
  JObj [("id", JNum (Int 14126)); ("nombre", JStr (js "Arroz Detallado"))]%string.

Definition detergente : Hit :=
  JObj [("id", JNum (Int 77)); ("nombre", JStr (js "Detergente Ace"))]%string.

Definition index_not_found : Error :=
  mkError (js "Index productos_colmado_colmado_william not found.")
          (js "MeiliSearchApiError: Index not found") None None.

(** An upstream failure that carries an HTTP status of its own. *)
Definition bad_gateway : Error :=
  mkError (js "Bad Gateway") (js "MeiliSearchCommunicationError: Bad Gateway")
          (Some 502%N) None.

Definition available : Error + HealthInfo := inr (mkHealth (js "available")).

Definition william_index : jsstring := js "productos_colmado_colmado_william".

(** The tenant's index holds one matching product. *)
Definition tenant_response : SearchResponse := mkResponse [arroz] (Some 1%N) 12.

Definition tenant_engine : Client :=
  mkClient (fun index _ _ _ =>
              if JsString.eqb index william_index then inr tenant_response
              else inr (mkResponse [] (Some 0%N) 1))
           available.

(** A new tenant: no local index yet, one match in the global catalogue. *)
Definition catalogue_response : SearchResponse := mkResponse [detergente] (Some 1%N) 3.

Definition fresh_tenant_engine : Client :=
  mkClient (fun index _ _ _ =>
              if JsString.eqb index william_index then inl index_not_found
              else inr catalogue_response)
           available.

(** The same data as [fresh_tenant_engine], answered more slowly. *)
Definition slow_fresh_tenant_engine : Client :=
  mkClient (fun index _ _ _ =>
              if JsString.eqb index william_index then inl index_not_found
              else inr (mkResponse [detergente] (Some 1%N) 250))
           available.

(** Every call fails. *)
Definition engine_down : Client :=
  mkClient (fun _ _ _ _ => inl bad_gateway) (inl bad_gateway).

(** An answer whose estimate is zero although it carries a hit. *)
Definition zero_estimate_response : SearchResponse := mkResponse [arroz] (Some 0%N) 5.

Definition zero_estimate_engine : Client :=
  mkClient (fun _ _ _ _ => inr zero_estimate_response) available.

(** Request bodies. *)
Definition str (s : string) : option Validator.Value :=
  Some (Validator.VString (js s)).
Definition number (s : string) : option Validator.Value :=
  Some (Validator.VNumber (js s)).

Definition arroz_body : Validator.Body :=
  Validator.mkBody (str "arroz") (str "colmado_william") None None.


(** White space around both fields, explicit paging. *)
Definition padded_body : Validator.Body :=
  Validator.mkBody (str "  detergente ace ") (str " colmado_william  ")
                   (number "10") (str "0").

Definition with_paging (limit offset : option Validator.Value) : Validator.Body :=
  Validator.mkBody (str "arroz") (str "colmado_william") limit offset.

End Fixtures.

(* ===================================================================== *)
(** ** config/meilisearch.js *)
(* ===================================================================== *)

Module Config.
Import Js Eff.
Local Open Scope eff_scope.

(** The environment variables the module reads. *)
Record ProcessEnv := mkProcessEnv {
  MEILISEARCH_HOST : option jsstring;
  MEILISEARCH_API_KEY : option jsstring;
  REQUEST_TIMEOUT : option jsstring
}.

(** The options handed to [new MeiliSearch]. *)
Record ClientOptions := mkOptions {
  host : jsstring;
  apiKey : jsstring;
  timeout : Num
}.

(** [String(value)] for a string or [undefined]. *)
Definition text_or_undefined (v : option jsstring) : jsstring :=
  match v with
  | Some s => s
  | None => js "undefined"
  end.

(** [a || b] for numbers: [NaN] and zero are falsy. *)
Definition or_number (a b : Num) : Num :=
  match a with
  | NaN => b
  | Int z => if (z =? 0)%Z then b else a
  end.

(** [parseInt(process.env.REQUEST_TIMEOUT) || 5000] *)
Definition request_timeout (env : ProcessEnv) : Num :=
  or_number (parseInt (text_or_undefined (REQUEST_TIMEOUT env))) (Int 5000).

(** A computation that returns or throws and traces nothing. *)
Definition lift (A : Type) (outcome : Error + A) : M A := fun tr => (outcome, tr).

Section WithConstructor.
(** The client the library makes of the options. *)
Variable Client : Type.
(** [new MeiliSearch(options)], which may throw. *)
Variable MeiliSearch : ClientOptions -> Error + Client.
(** The stack an error made here carries. *)
Variable stack_here : jsstring.

(** [new Error('MEILISEARCH_API_KEY is required')] *)
Definition key_required : Error :=
  mkError (js "MEILISEARCH_API_KEY is required") stack_here None None.

(** The module body: what [require('../config/meilisearch')] evaluates
    to, or throws.  [!apiKey] holds for [undefined] and for the empty
    string.  The last log line also names the host. *)
Definition client (env : ProcessEnv) : M Client :=
  let host := or_str (MEILISEARCH_HOST env) (js "https://melisearch.onrpa.com") in
  match MEILISEARCH_API_KEY env with
  | Some ((_ :: _) as apiKey) =>
      client <- lift (MeiliSearch {| host := host;
                                     apiKey := apiKey;
                                     timeout := request_timeout env |}) ;;
      log Info "Meilisearch client configured for host" ;;
      ret client
  | _ =>
      log Err "MEILISEARCH_API_KEY is not defined in environment variables" ;;
      throw key_required
  end.

End WithConstructor.

End Config.

(* ===================================================================== *)
(** ** Readings of the code used by the properties below *)
(* ===================================================================== *)

Module Reading.
Import Js Eff SearchService Validator Http.


(** A string that is not empty and has no white space at either end. *)
Definition tidy (s : jsstring) : Prop :=
  s <> []
  /\ JsString.is_space (hd 0%N s) = false
  /\ JsString.is_space (last s 0%N) = false.

(** The index, query, limit and offset of an engine search call. *)
Definition call_index (ev : Event) : jsstring :=
  match ev with SearchCall index _ _ _ => index | _ => [] end.

Definition call_query (ev : Event) : jsstring :=
  match ev with SearchCall _ query _ _ => query | _ => [] end.

Definition call_limit (ev : Event) : Num :=
  match ev with SearchCall _ _ limit _ => limit | _ => NaN end.

Definition call_offset (ev : Event) : Num :=
  match ev with SearchCall _ _ _ offset => offset | _ => NaN end.

(** An index name of the form [LOCAL_INDEX_PREFIX + slug] for a slug of
    the class [[a-z0-9_-]+]. *)
Definition tenant_index (env : Env) (index : jsstring) : Prop :=
  exists slug,
    index = LOCAL_INDEX_PREFIX env ++ slug
    /\ slug <> []
    /\ Forall (fun c => In c ValidationSpec.slug_alphabet) slug.

End Reading.

(* ===================================================================== *)
(** ** More concrete inputs, for the examples of the later sections *)
(* ===================================================================== *)

Module MoreFixtures.
Import Js Eff SearchService Validator Http Fixtures.

Definition clock : jsstring := js "2025-01-19T10:30:00.000Z".

(** A tenant index that fails, a global catalogue that fails too. *)
Definition local_down_engine : Client :=
  mkClient (fun index _ _ _ =>
              if JsString.eqb index william_index then inl index_not_found
              else inl bad_gateway)
           available.

(** [fresh_tenant_engine] with another tenant's index filled as well. *)
Definition other_tenant_engine : Client :=
  mkClient (fun index _ _ _ =>
              if JsString.eqb index william_index then inl index_not_found
              else if JsString.eqb index (js "productos_colmado_colmado_maria")
                   then inr tenant_response
                   else inr catalogue_response)
           (inl bad_gateway).

(** No variable set but the key. *)
Definition key_only : Config.ProcessEnv :=
  Config.mkProcessEnv None (Some (js "masterKey")) None.

(** The key set to the empty string. *)
Definition empty_key : Config.ProcessEnv :=
  Config.mkProcessEnv (Some (js "http://localhost:7700")) (Some []) (Some (js "3000")).

(** A timeout with a unit after the number. *)
Definition timeout_with_unit : Config.ProcessEnv :=
  Config.mkProcessEnv None (Some (js "masterKey")) (Some (js "3000ms")).

(** A constructor that accepts every option set and keeps it. *)
Definition keep_options (o : Config.ClientOptions) : Error + Config.ClientOptions :=
  inr o.


End MoreFixtures.

(* ===================================================================== *)
(** ** The fallback decision: properties of [searchWithFallback] *)
(* ===================================================================== *)

Section FallbackProperties.
Import Js Eff SearchService Spec.

Variable env : Env.

Lemma hits_length_pos (r : SearchResponse) :
  (0 <? hits_length r)%N = negb (match hits r with [] => true | _ => false end).
Proof.
  unfold hits_length. destruct (hits r); simpl; [reflexivity|].
  apply N.ltb_lt. lia.
Qed.

(** The run of [searchWithFallback] when the local call finds hits. *)
Lemma run_local_hit c query slug l o r tr :
  local_outcome env c query slug l o = inr r ->
  hits r <> [] ->
  searchWithFallback env c query slug l o tr =
    (inr (local_result env query slug l o r),
     tr ++ [Log Info "Search request";
            SearchCall (LOCAL_INDEX_PREFIX env ++ slug) query (limit_of l) (offset_of o);
            Log Info "Local search completed"]).
Proof.
  unfold local_outcome. intros Hloc Hne.
  unfold searchWithFallback, searchLocal, index_search, try_catch, bind, log,
    emit, await, ret. fold (limit_of l) (offset_of o).
  rewrite Hloc, hits_length_pos. simpl.
  destruct (hits r) eqn:Hh; [congruence|]. simpl.
  unfold local_result. rewrite Hh, <- !app_assoc. reflexivity.
Qed.

(** The run when the local call finds nothing or fails: the global call
    decides.  [mid] is what is traced up to the global call. *)
Lemma run_no_local_hit c query slug l o tr :
  no_local_hit (local_outcome env c query slug l o) ->
  exists mid,
    searchWithFallback env c query slug l o tr =
      match global_outcome env c query l o with
      | inr g =>
          (inr (global_result env query l o g),
           tr ++ mid ++ [SearchCall (GLOBAL_INDEX env) query (limit_of l) (offset_of o);
                         Log Info "Global search completed"])
      | inl e =>
          (inl e,
           tr ++ mid ++ [SearchCall (GLOBAL_INDEX env) query (limit_of l) (offset_of o);
                         Log Err "Search failed"])
      end
    /\ searches mid =
         [SearchCall (LOCAL_INDEX_PREFIX env ++ slug) query (limit_of l) (offset_of o)].
Proof.
  unfold local_outcome, global_outcome, no_local_hit. intros Hloc.
  unfold searchWithFallback, searchLocal, searchGlobal, index_search, try_catch,
    bind, log, emit, await, ret, throw.
  fold (limit_of l) (offset_of o).
  destruct (search_index c (LOCAL_INDEX_PREFIX env ++ slug) query
              (limit_of l) (offset_of o)) as [e|r] eqn:E.
  - exists [Log Info "Search request";
            SearchCall (LOCAL_INDEX_PREFIX env ++ slug) query (limit_of l) (offset_of o);
            Log Warn "Local index search failed, falling back to global"].
    split; [|reflexivity].
    destruct (search_index c (GLOBAL_INDEX env) query (limit_of l) (offset_of o));
      simpl; rewrite <- !app_assoc; reflexivity.
  - exists [Log Info "Search request";
            SearchCall (LOCAL_INDEX_PREFIX env ++ slug) query (limit_of l) (offset_of o);
            Log Info "Local search completed";
            Log Info "No results in local index, falling back to global"].
    split; [|reflexivity].
    rewrite hits_length_pos, Hloc. simpl.
    destruct (search_index c (GLOBAL_INDEX env) query (limit_of l) (offset_of o));
      simpl; rewrite <- !app_assoc; reflexivity.
Qed.

(** Either the local call found hits or it did not. *)
Lemma local_hit_or_not (o : Error + SearchResponse) :
  (exists r, o = inr r /\ hits r <> []) \/ no_local_hit o.
Proof.
  destruct o as [e|r]; [right; exact I|].
  destruct (hits r) eqn:Hh.
  - right. exact Hh.
  - left. exists r. split; [reflexivity|]. rewrite Hh. discriminate.
Qed.

(** A result is the local one after a local hit, the global one otherwise. *)
Lemma result_shape c query slug l o tr res tr' :
  searchWithFallback env c query slug l o tr = (inr res, tr') ->
  (exists r, local_outcome env c query slug l o = inr r
             /\ hits r <> []
             /\ res = local_result env query slug l o r)
  \/ (no_local_hit (local_outcome env c query slug l o)
      /\ exists g, global_outcome env c query l o = inr g
                   /\ res = global_result env query l o g).
Proof.
  intros Hrun.
  destruct (local_hit_or_not (local_outcome env c query slug l o))
    as [(r & Hloc & Hne)|Hno].
  - rewrite (run_local_hit c _ _ _ _ tr Hloc Hne) in Hrun.
    inversion Hrun; subst. left. exists r. repeat split; assumption.
  - destruct (run_no_local_hit c query slug l o tr Hno) as (mid & Heq & _).
    rewrite Heq in Hrun.
    destruct (global_outcome env c query l o) as [e|g] eqn:Hg;
      inversion Hrun; subst.
    right. split; [exact Hno|]. exists g. split; reflexivity.
Qed.

(** C1: when the call on the tenant's index succeeds with one or more hits,
    [searchWithFallback] returns at once with source [local], the index name
    [LOCAL_INDEX_PREFIX + slug], and the hits and processing time of that
    answer as they are; the only engine call issued is the local one, the
    global index is never called. *)
Theorem local_hit_returns_local c query slug l o r tr :
  local_outcome env c query slug l o = inr r ->
  hits r <> [] ->
  exists res issued,
    searchWithFallback env c query slug l o tr = (inr res, tr ++ issued)
    /\ source res = Local
    /\ indexName res = LOCAL_INDEX_PREFIX env ++ slug
    /\ res_hits res = hits r
    /\ res_processingTimeMs res = processingTimeMs r
    /\ searches issued =
         [SearchCall (LOCAL_INDEX_PREFIX env ++ slug) query (limit_of l) (offset_of o)].
Proof.
  intros Hloc Hne.
  eexists; eexists. split; [apply (run_local_hit c _ _ _ _ tr Hloc Hne)|].
  repeat split.
Qed.


(** C3: in every result, source [local] comes with the index name
    [LOCAL_INDEX_PREFIX + slug] and only after a local call that succeeded
    with at least one hit; source [global] comes with the configured global
    index name. *)
Theorem source_index_invariant c query slug l o tr res tr' :
  searchWithFallback env c query slug l o tr = (inr res, tr') ->
  match source res with
  | Local =>
      indexName res = LOCAL_INDEX_PREFIX env ++ slug
      /\ exists r, local_outcome env c query slug l o = inr r /\ hits r <> []
  | Global => indexName res = GLOBAL_INDEX env
  end.
Proof.
  intros Hrun.
  destruct (local_hit_or_not (local_outcome env c query slug l o))
    as [(r & Hloc & Hne)|Hno].
  - rewrite (run_local_hit c _ _ _ _ tr Hloc Hne) in Hrun.
    inversion Hrun; subst. simpl. split; [reflexivity|].
    exists r. split; assumption.
  - destruct (run_no_local_hit c query slug l o tr Hno) as (mid & Heq & _).
    rewrite Heq in Hrun.
    destruct (global_outcome env c query l o); inversion Hrun; subst.
    reflexivity.
Qed.

(** Every result is built from the answer of the index it names. *)
Lemma result_from_named_index c query slug l o tr res tr' :
  searchWithFallback env c query slug l o tr = (inr res, tr') ->
  exists r,
    search_index c (indexName res) query (limit_of l) (offset_of o) = inr r
    /\ res_hits res = hits r
    /\ total res = totalHits r
    /\ res_query res = query.
Proof.
  intros Hrun.
  destruct (local_hit_or_not (local_outcome env c query slug l o))
    as [(r & Hloc & Hne)|Hno].
  - rewrite (run_local_hit c _ _ _ _ tr Hloc Hne) in Hrun.
    inversion Hrun; subst. exists r. repeat split. exact Hloc.
  - destruct (run_no_local_hit c query slug l o tr Hno) as (mid & Heq & _).
    rewrite Heq in Hrun.
    destruct (global_outcome env c query l o) as [e|g] eqn:Hg;
      inversion Hrun; subst.
    exists g. repeat split. exact Hg.
Qed.

(** C4, amended: the total of a result is the engine's estimated total when
    that field is present and not zero, and the number of returned hits
    when the field is absent or zero. *)
Theorem total_two_tier c query slug l o tr res tr' :
  searchWithFallback env c query slug l o tr = (inr res, tr') ->
  exists r,
    search_index c (indexName res) query (limit_of l) (offset_of o) = inr r
    /\ res_hits res = hits r
    /\ (forall n, estimatedTotalHits r = Some n -> n <> 0%N -> total res = n)
    /\ (estimatedTotalHits r = None \/ estimatedTotalHits r = Some 0%N ->
        total res = N.of_nat (List.length (res_hits res))).
Proof.
  intros Hrun.
  destruct (result_from_named_index c query slug l o tr Hrun)
    as (r & Hidx & Hhits & Htot & _).
  exists r. repeat split; try assumption.
  - intros n Hn Hnz. rewrite Htot. unfold totalHits, or_num. rewrite Hn.
    destruct (N.eqb_spec n 0); [contradiction|reflexivity].
  - intros Hest. rewrite Htot, Hhits. unfold totalHits, or_num, hits_length.
    destruct Hest as [-> | ->]; reflexivity.
Qed.

End FallbackProperties.

(** C8: two runs of the same request, against engines whose answers differ
    at most in their processing time, end alike: both fail, or both return
    the same source, index name, hits and total. *)
Theorem repeated_request_same_result env c1 c2 query slug l o tr1 tr2 :
  (forall index,
      Spec.same_data
        (SearchService.search_index c1 index query (Spec.limit_of l) (Spec.offset_of o))
        (SearchService.search_index c2 index query (Spec.limit_of l) (Spec.offset_of o))) ->
  Spec.same_result
    (fst (SearchService.searchWithFallback env c1 query slug l o tr1))
    (fst (SearchService.searchWithFallback env c2 query slug l o tr2)).
Proof.
  intros Hsame.
  pose proof (Hsame (SearchService.LOCAL_INDEX_PREFIX env ++ slug)) as Hl.
  pose proof (Hsame (SearchService.GLOBAL_INDEX env)) as Hg.
  fold (Spec.local_outcome env c1 query slug l o) in Hl.
  fold (Spec.local_outcome env c2 query slug l o) in Hl.
  fold (Spec.global_outcome env c1 query l o) in Hg.
  fold (Spec.global_outcome env c2 query l o) in Hg.
  destruct (local_hit_or_not (Spec.local_outcome env c1 query slug l o))
    as [(r1 & Hloc1 & Hne1)|Hno1].
  - rewrite Hloc1 in Hl.
    destruct (Spec.local_outcome env c2 query slug l o) as [e2|r2] eqn:Hloc2;
      [contradiction|].
    destruct Hl as [Hh He].
    assert (Hne2 : SearchService.hits r2 <> []) by (rewrite <- Hh; exact Hne1).
    rewrite (run_local_hit env c1 _ _ _ _ tr1 Hloc1 Hne1).
    rewrite (run_local_hit env c2 _ _ _ _ tr2 Hloc2 Hne2).
    simpl. unfold SearchService.totalHits, SearchService.hits_length.
    rewrite Hh, He. repeat split.
  - assert (Hno2 : Spec.no_local_hit (Spec.local_outcome env c2 query slug l o)).
    { destruct (Spec.local_outcome env c1 query slug l o) as [e1|r1];
        destruct (Spec.local_outcome env c2 query slug l o) as [e2|r2];
        simpl in *; try exact I; try contradiction.
      destruct Hl as [Hh _]. rewrite <- Hh. exact Hno1. }
    destruct (run_no_local_hit env c1 query slug l o tr1 Hno1) as (m1 & Heq1 & _).
    destruct (run_no_local_hit env c2 query slug l o tr2 Hno2) as (m2 & Heq2 & _).
    rewrite Heq1, Heq2.
    destruct (Spec.global_outcome env c1 query l o) as [e1|g1];
      destruct (Spec.global_outcome env c2 query l o) as [e2|g2];
      simpl in *; try exact I; try contradiction.
    destruct Hg as [Hh He].
    unfold SearchService.totalHits, SearchService.hits_length.
    rewrite Hh, He. repeat split.
Qed.

(* ===================================================================== *)
(** ** The fallback decision on concrete engines *)
(* ===================================================================== *)

Section FallbackExamples.
Import Js Eff SearchService Spec Fixtures.

(** The scenario "local hit": the tenant's index answers with one product. *)
Lemma local_hit_returns_local_witness :
  local_outcome env_default tenant_engine (js "arroz") (js "colmado_william")
                None None = inr tenant_response
  /\ hits tenant_response <> []
  /\ exists res issued,
      searchWithFallback env_default tenant_engine (js "arroz")
                         (js "colmado_william") None None []
        = (inr res, [] ++ issued)
      /\ source res = Local
      /\ indexName res = LOCAL_INDEX_PREFIX env_default ++ js "colmado_william"
      /\ res_hits res = hits tenant_response
      /\ res_processingTimeMs res = processingTimeMs tenant_response
      /\ searches issued =
           [SearchCall (LOCAL_INDEX_PREFIX env_default ++ js "colmado_william")
                       (js "arroz") (limit_of None) (offset_of None)].
Proof.
  split; [reflexivity|]. split; [discriminate|].
  apply (local_hit_returns_local env_default tenant_engine (js "arroz")
           (js "colmado_william") None None (r := tenant_response) []).
  - reflexivity.
  - discriminate.
Defined.


(** With the engine down the global failure reaches the caller as it is. *)
Example engine_down_propagates :
  fst (searchWithFallback env_default engine_down (js "arroz")
                          (js "colmado_william") None None [])
  = inl bad_gateway.
Proof. reflexivity. Qed.

(** Nothing anywhere: an empty global answer is a result, not a failure. *)
Example nothing_anywhere :
  fst (searchWithFallback env_default
         (mkClient (fun _ _ _ _ => inr (mkResponse [] (Some 0%N) 0)) available)
         (js "xyz") (js "colmado_william") None None [])
  = inr {| source := Global; indexName := js "colmado_inventory";
           res_hits := []; total := 0; res_query := js "xyz";
           res_limit := Int 20; res_offset := Int 0;
           res_processingTimeMs := 0 |}.
Proof. reflexivity. Qed.

Lemma source_index_invariant_witness :
  exists res tr',
    searchWithFallback env_default tenant_engine (js "arroz")
                       (js "colmado_william") None None [] = (inr res, tr')
    /\ match source res with
       | Local =>
           indexName res = LOCAL_INDEX_PREFIX env_default ++ js "colmado_william"
           /\ exists r,
               local_outcome env_default tenant_engine (js "arroz")
                             (js "colmado_william") None None = inr r
               /\ hits r <> []
       | Global => indexName res = GLOBAL_INDEX env_default
       end.
Proof.
  eexists; eexists. split; [reflexivity|].
  eapply (source_index_invariant env_default tenant_engine (js "arroz")
            (js "colmado_william") None None []).
  reflexivity.
Defined.

(** C4 as stated fails: the engine reports an estimate of zero together
    with one hit, and the total of the result is one, not the estimate. *)
Lemma zero_estimate_counterexample :
  exists res tr',
    searchWithFallback env_default zero_estimate_engine (js "arroz")
                       (js "colmado_william") None None [] = (inr res, tr')
    /\ search_index zero_estimate_engine (indexName res) (js "arroz")
                    (limit_of None) (offset_of None) = inr zero_estimate_response
    /\ estimatedTotalHits zero_estimate_response = Some 0%N
    /\ total_as_claimed zero_estimate_response = 0%N
    /\ total res = 1%N
    /\ total res <> total_as_claimed zero_estimate_response.
Proof.
  eexists; eexists. split; [reflexivity|].
  repeat split. discriminate.
Qed.

Lemma total_two_tier_witness :
  exists res tr',
    searchWithFallback env_default zero_estimate_engine (js "arroz")
                       (js "colmado_william") None None [] = (inr res, tr')
    /\ exists r,
        search_index zero_estimate_engine (indexName res) (js "arroz")
                     (limit_of None) (offset_of None) = inr r
        /\ res_hits res = hits r
        /\ (forall n, estimatedTotalHits r = Some n -> n <> 0%N -> total res = n)
        /\ (estimatedTotalHits r = None \/ estimatedTotalHits r = Some 0%N ->
            total res = N.of_nat (List.length (res_hits res))).
Proof.
  eexists; eexists. split; [reflexivity|].
  eapply (total_two_tier env_default zero_estimate_engine (js "arroz")
            (js "colmado_william") None None []).
  reflexivity.
Defined.

Lemma repeated_request_same_result_witness :
  (forall index,
      same_data
        (search_index fresh_tenant_engine index (js "detergente ace")
                      (limit_of None) (offset_of None))
        (search_index slow_fresh_tenant_engine index (js "detergente ace")
                      (limit_of None) (offset_of None)))
  /\ same_result
       (fst (searchWithFallback env_default fresh_tenant_engine (js "detergente ace")
                                (js "colmado_william") None None []))
       (fst (searchWithFallback env_default slow_fresh_tenant_engine
                                (js "detergente ace") (js "colmado_william")
                                None None [])).
Proof.
  assert (H : forall index,
             same_data
               (search_index fresh_tenant_engine index (js "detergente ace")
                             (limit_of None) (offset_of None))
               (search_index slow_fresh_tenant_engine index (js "detergente ace")
                             (limit_of None) (offset_of None))).
  { intros index. simpl.
    destruct (JsString.eqb index william_index); simpl; [exact I|].
    split; reflexivity. }
  split; [exact H|].
  apply (repeated_request_same_result env_default fresh_tenant_engine
           slow_fresh_tenant_engine (js "detergente ace") (js "colmado_william")
           None None [] [] H).
Defined.

End FallbackExamples.

(* ===================================================================== *)
(** ** Request validation: the rules against the specification *)
(* ===================================================================== *)

Section ValidationProperties.
Import Js Validator ValidationSpec.

(** The chains of the rules, item by item. *)
Lemma rules_explicit :
  searchValidationRules =
  [ mkChain Fquery false
      [CustomValidation is_string None;
       Sanitization JsString.trim;
       StandardValidation isEmpty true
         (Some "Query is required and must be a non-empty string"%string)];
    mkChain Fslug false
      [CustomValidation is_string None;
       Sanitization JsString.trim;
       StandardValidation isEmpty true
         (Some "Slug is required and must be a non-empty string"%string);
       StandardValidation matches_slug false
         (Some "Slug must contain only lowercase letters, numbers, hyphens and underscores"%string)];
    mkChain Flimit true
      [StandardValidation (isInt (Some 1%Z) (Some 100%Z)) false
         (Some "Limit must be an integer between 1 and 100"%string)];
    mkChain Foffset true
      [StandardValidation (isInt (Some 0%Z) None) false
         (Some "Offset must be a non-negative integer"%string)] ].
Proof. reflexivity. Qed.

(** What running the rules leaves: the sanitized request and the errors of
    the four chains, in the order of the rules. *)
Lemma validationResult_explicit (b : Body) :
  validationResult b =
    (sanitized b,
     query_errors (query b) ++ slug_errors (slug b)
       ++ limit_errors (limit b) ++ offset_errors (offset b)).
Proof.
  unfold validationResult. rewrite rules_explicit.
  destruct b as [q s l o]. unfold sanitized, query_errors, slug_errors.
  cbn [run_chains run_chain run_stack run_item chain_field chain_optional
       chain_stack get set query slug limit offset andb is_undefined
       error_for field_path].
  change (toString (Some (VString (JsString.trim (toString q)))))
    with (JsString.trim (toString q)).
  change (toString (Some (VString (JsString.trim (toString s)))))
    with (JsString.trim (toString s)).
  generalize (is_string q), (isEmpty (JsString.trim (toString q))),
    (is_string s), (isEmpty (JsString.trim (toString s))),
    (matches_slug (JsString.trim (toString s))).
  intros b1 b2 b3 b4 b5.
  destruct l as [l|], o as [o|];
    cbn [run_chains run_chain run_stack run_item chain_field chain_optional
         chain_stack get set query slug limit offset andb is_undefined
         error_for field_path limit_errors offset_errors];
    repeat match goal with
           | |- context [isInt ?a ?b ?t] => generalize (isInt a b t); intro
           end;
    repeat match goal with
           | x : bool |- _ => destruct x
           end;
    reflexivity.
Qed.

(** *** Digits and integers: the pattern of [isInt] against the grammar *)

Lemma digit_of_sound c d : digit_of c d -> is_digit c = true /\ digit_val c = d.
Proof.
  unfold digit_of, digit_table. simpl.
  intros H.
  repeat (destruct H as [H|H];
          [inversion H; subst; split; reflexivity|]).
  contradiction.
Qed.

Lemma digit_of_complete c : is_digit c = true -> digit_of c (digit_val c).
Proof.
  unfold is_digit. intros H.
  apply andb_true_iff in H. destruct H as [H1 H2].
  apply N.leb_le in H1. apply N.leb_le in H2.
  assert (Hc : (c = 48 \/ c = 49 \/ c = 50 \/ c = 51 \/ c = 52 \/ c = 53
                \/ c = 54 \/ c = 55 \/ c = 56 \/ c = 57)%N) by lia.
  unfold digit_of, digit_table.
  repeat (destruct Hc as [Hc|Hc]; [subst c; simpl; tauto|]).
  subst c. simpl. tauto.
Qed.

Lemma digit_not_sign c :
  is_digit c = true -> is_sign c = false /\ (c =? 45)%N = false /\ (c =? 43)%N = false.
Proof.
  unfold is_digit, is_sign. intros H.
  apply andb_true_iff in H. destruct H as [H1 H2].
  apply N.leb_le in H1. apply N.leb_le in H2.
  assert (H45 : (c =? 45)%N = false) by (apply N.eqb_neq; lia).
  assert (H43 : (c =? 43)%N = false) by (apply N.eqb_neq; lia).
  rewrite H45, H43. repeat split.
Qed.

Lemma all_digits1_snoc s c :
  all_digits1 (s ++ [c]) = forallb is_digit s && is_digit c.
Proof.
  unfold all_digits1. rewrite forallb_app. simpl. rewrite andb_true_r.
  destruct s; reflexivity.
Qed.

Lemma digits_val_snoc s c :
  digits_val (s ++ [c]) = (10 * digits_val s + digit_val c)%Z.
Proof. unfold digits_val. rewrite fold_left_app. reflexivity. Qed.

Lemma digits_of_sound s z :
  digits_of s z -> all_digits1 s = true /\ digits_val s = z.
Proof.
  induction 1 as [c d Hd | s z c d Hs [IHa IHv] Hd].
  - apply digit_of_sound in Hd. destruct Hd as [Hd Hv].
    unfold all_digits1, digits_val. simpl. rewrite Hd, <- Hv. split; [reflexivity|lia].
  - apply digit_of_sound in Hd. destruct Hd as [Hd Hv].
    rewrite all_digits1_snoc, digits_val_snoc, IHv, Hv, Hd.
    unfold all_digits1 in IHa. apply andb_true_iff in IHa.
    destruct IHa as [_ ->]. split; reflexivity.
Qed.

Lemma digits_of_complete s : all_digits1 s = true -> digits_of s (digits_val s).
Proof.
  induction s as [|c s IH] using rev_ind.
  - discriminate.
  - rewrite all_digits1_snoc, digits_val_snoc. intros H.
    apply andb_true_iff in H. destruct H as [Hs Hc].
    destruct s as [|c0 s'].
    + simpl. change (digits_val []) with 0%Z.
      replace (10 * 0 + digit_val c)%Z with (digit_val c) by lia.
      apply digits_one. apply digit_of_complete. exact Hc.
    + apply digits_more.
      * apply IH. unfold all_digits1. simpl. exact Hs.
      * apply digit_of_complete. exact Hc.
Qed.

Lemma digits_of_head s z :
  digits_of s z -> exists c r, s = c :: r /\ is_digit c = true.
Proof.
  intros H. apply digits_of_sound in H. destruct H as [H _].
  unfold all_digits1 in H. destruct s as [|c r]; [discriminate|].
  simpl in H. apply andb_true_iff in H. destruct H as [H _].
  exists c, r. split; [reflexivity|exact H].
Qed.

Lemma integer_text_sound s z :
  integer_text s z -> int_pattern s = true /\ int_value s = z.
Proof.
  intros H. destruct H as [s z H | s z H | s z H].
  - destruct (digits_of_head H) as (c & r & -> & Hc).
    destruct (digit_not_sign _ Hc) as (Hs & H45 & H43).
    unfold int_pattern, int_value. rewrite Hs, H45, H43.
    apply digits_of_sound. exact H.
  - apply digits_of_sound in H. destruct H as [Ha Hv].
    split; [exact Ha|exact Hv].
  - apply digits_of_sound in H. destruct H as [Ha Hv].
    split; [exact Ha|]. simpl. rewrite Hv. reflexivity.
Qed.

Lemma integer_text_complete s : int_pattern s = true -> integer_text s (int_value s).
Proof.
  destruct s as [|c r]; [discriminate|].
  unfold int_pattern, int_value, is_sign.
  destruct (N.eqb_spec c 45) as [->|H45].
  - simpl. intros H. apply (integer_minus (digits_of_complete _ H)).
  - destruct (N.eqb_spec c 43) as [->|H43].
    + simpl. intros H. apply (integer_plus (digits_of_complete _ H)).
    + simpl. intros H. apply integer_plain. apply digits_of_complete. exact H.
Qed.

(** [isInt] with bounds says what the grammar says. *)
Lemma isInt_spec (min max : option Z) (s : jsstring) :
  isInt min max s = true <->
  exists z, integer_text s z
            /\ match min with Some m => (m <= z)%Z | None => True end
            /\ match max with Some m => (z <= m)%Z | None => True end.
Proof.
  unfold isInt. split.
  - intros H. apply andb_true_iff in H. destruct H as [H Hmax].
    apply andb_true_iff in H. destruct H as [Hpat Hmin].
    exists (int_value s). split; [apply integer_text_complete; exact Hpat|].
    split.
    + destruct min; [apply Z.leb_le; exact Hmin|exact I].
    + destruct max; [apply Z.leb_le; exact Hmax|exact I].
  - intros (z & Ht & Hmin & Hmax).
    apply integer_text_sound in Ht. destruct Ht as [Hpat <-].
    rewrite Hpat. simpl. apply andb_true_iff. split.
    + destruct min; [apply Z.leb_le; exact Hmin|reflexivity].
    + destruct max; [apply Z.leb_le; exact Hmax|reflexivity].
Qed.


(** *** The slug pattern against the listed alphabet *)

Lemma below_128_cases (P : N -> bool) :
  forallb P (map N.of_nat (seq 0 128)) = true ->
  forall c, (c < 128)%N -> P c = true.
Proof.
  intros H c Hc. rewrite forallb_forall in H. apply H.
  rewrite <- (N2Nat.id c). apply in_map. apply in_seq. lia.
Qed.

Lemma slug_char_listed c : slug_char c = existsb (N.eqb c) slug_alphabet.
Proof.
  destruct (N.ltb_spec c 128) as [Hlt|Hge].
  - apply Bool.eqb_prop.
    apply (below_128_cases
             (fun c => Bool.eqb (slug_char c) (existsb (N.eqb c) slug_alphabet)));
      [vm_compute; reflexivity | exact Hlt].
  - assert (Hs : slug_char c = false).
    { unfold slug_char, is_digit.
      destruct (N.leb_spec c 122); [lia|].
      destruct (N.leb_spec c 57); [lia|].
      destruct (N.eqb_spec c 95); [lia|].
      destruct (N.eqb_spec c 45); [lia|].
      rewrite !andb_false_r. reflexivity. }
    rewrite Hs. symmetry. apply not_true_is_false. intros H.
    apply existsb_exists in H. destruct H as (x & Hin & Heq).
    apply N.eqb_eq in Heq. subst x.
    assert (Hall : forallb (fun x => (x <? 128)%N) slug_alphabet = true)
      by (vm_compute; reflexivity).
    rewrite forallb_forall in Hall. apply Hall in Hin.
    apply N.ltb_lt in Hin. lia.
Qed.

Lemma slug_char_spec c : slug_char c = true <-> In c slug_alphabet.
Proof.
  rewrite slug_char_listed, existsb_exists. split.
  - intros (x & Hin & Heq). apply N.eqb_eq in Heq. subst x. exact Hin.
  - intros Hin. exists c. split; [exact Hin|apply N.eqb_refl].
Qed.

Lemma matches_slug_spec s :
  matches_slug s = true <-> s <> [] /\ Forall (fun c => In c slug_alphabet) s.
Proof.
  unfold matches_slug. rewrite andb_true_iff, forallb_forall, Forall_forall.
  split.
  - intros [Hne Hall]. split.
    + destruct s; [discriminate|discriminate].
    + intros c Hc. apply slug_char_spec. apply Hall. exact Hc.
  - intros [Hne Hall]. split.
    + destruct s; [contradiction|reflexivity].
    + intros c Hc. apply slug_char_spec. apply Hall. exact Hc.
Qed.

Lemma isEmpty_false s : isEmpty s = false <-> s <> [].
Proof. destruct s; simpl; split; congruence. Qed.

(** *** Each chain against the words of the specification *)

Lemma query_errors_spec v : query_errors v = [] <-> query_valid v.
Proof.
  unfold query_errors, query_valid. split.
  - intros H. apply app_eq_nil in H. destruct H as [H1 H2].
    destruct v as [[| |t|s]|]; simpl in H1; try discriminate.
    exists s. split; [reflexivity|].
    simpl in H2. apply isEmpty_false.
    destruct (isEmpty (JsString.trim s)); [discriminate|reflexivity].
  - intros (s & -> & Hne). simpl.
    apply isEmpty_false in Hne. rewrite Hne. reflexivity.
Qed.

Lemma slug_errors_spec v : slug_errors v = [] <-> slug_valid v.
Proof.
  unfold slug_errors, slug_valid. split.
  - intros H. apply app_eq_nil in H. destruct H as [H1 H].
    apply app_eq_nil in H. destruct H as [H2 H3].
    destruct v as [[| |t|s]|]; simpl in H1; try discriminate.
    exists s. split; [reflexivity|]. simpl in H2, H3.
    destruct (matches_slug (JsString.trim s)) eqn:Hm; [|discriminate].
    apply matches_slug_spec in Hm. exact Hm.
  - intros (s & -> & Hne & Hall). simpl.
    assert (Hm : matches_slug (JsString.trim s) = true)
      by (apply matches_slug_spec; split; assumption).
    apply isEmpty_false in Hne. rewrite Hne, Hm. reflexivity.
Qed.

Lemma bounded_integer_spec (min max : option Z) (x : Value) :
  isInt min max (toString (Some x)) = true <->
  exists z, parses_as x z
            /\ match min with Some m => (m <= z)%Z | None => True end
            /\ match max with Some m => (z <= m)%Z | None => True end.
Proof.
  unfold parses_as. destruct x as [|b|t|s]; simpl.
  - split; [intros H; unfold isInt in H; discriminate|].
    intros (z & (text & Ht & _) & _). discriminate.
  - split.
    + intros H. destruct b; unfold isInt in H; discriminate.
    + intros (z & (text & Ht & _) & _). discriminate.
  - rewrite isInt_spec. split.
    + intros (z & Hz & Hb). exists z. split; [exists t; split; [reflexivity|exact Hz]|exact Hb].
    + intros (z & (text & Ht & Hz) & Hb). inversion Ht; subst. exists z. split; assumption.
  - rewrite isInt_spec. split.
    + intros (z & Hz & Hb). exists z. split; [exists s; split; [reflexivity|exact Hz]|exact Hb].
    + intros (z & (text & Ht & Hz) & Hb). inversion Ht; subst. exists z. split; assumption.
Qed.

Lemma limit_errors_spec v : limit_errors v = [] <-> limit_valid v.
Proof.
  unfold limit_errors, limit_valid. destruct v as [x|]; [|tauto].
  destruct (isInt (Some 1%Z) (Some 100%Z) (toString (Some x))) eqn:E.
  - apply bounded_integer_spec in E. destruct E as (z & Hz & H1 & H2).
    split; [|reflexivity]. intros _. exists z. split; [exact Hz|lia].
  - split; [discriminate|]. intros (z & Hz & Hb).
    assert (isInt (Some 1%Z) (Some 100%Z) (toString (Some x)) = true).
    { apply bounded_integer_spec. exists z. split; [exact Hz|]. split; lia. }
    congruence.
Qed.

Lemma offset_errors_spec v : offset_errors v = [] <-> offset_valid v.
Proof.
  unfold offset_errors, offset_valid. destruct v as [x|]; [|tauto].
  destruct (isInt (Some 0%Z) None (toString (Some x))) eqn:E.
  - apply bounded_integer_spec in E. destruct E as (z & Hz & H1 & H2).
    split; [|reflexivity]. intros _. exists z. split; [exact Hz|lia].
  - split; [discriminate|]. intros (z & Hz & Hb).
    assert (isInt (Some 0%Z) None (toString (Some x)) = true).
    { apply bounded_integer_spec. exists z. split; [exact Hz|]. split; [lia|exact I]. }
    congruence.
Qed.



Lemma no_error_spec (b : Body) :
  snd (validationResult b) = [] <-> accepted b.
Proof.
  rewrite validationResult_explicit. simpl snd. unfold accepted.
  rewrite <- query_errors_spec, <- slug_errors_spec, <- limit_errors_spec,
    <- offset_errors_spec.
  split.
  - intros H. apply app_eq_nil in H. destruct H as [H1 H].
    apply app_eq_nil in H. destruct H as [H2 H].
    apply app_eq_nil in H. destruct H as [H3 H4]. tauto.
  - intros (H1 & H2 & H3 & H4). rewrite H1, H2, H3, H4. reflexivity.
Qed.

End ValidationProperties.

(* ===================================================================== *)
(** ** The search route: validation gate and trimmed fields *)
(* ===================================================================== *)

Section SearchRoute.
Import Js Eff SearchService Validator Http Spec ValidationSpec HttpSpec.

Variable env : Env.
Variable c : Client.

Lemma validate_spec (errors : list ValidationError) :
  validate errors = None <-> errors = [].
Proof. destruct errors; simpl; split; intros; try reflexivity; discriminate. Qed.

(** The controller, as one step over [searchWithFallback]. *)
Lemma search_run (b : Body) (tr : Trace) :
  search env c b tr =
    match searchWithFallback env c
            (String_of (Validator.query b)) (String_of (Validator.slug b))
            (Some (parseInt (String_of (Some (default (Validator.limit b) (VNumber (js "20")))))))
            (Some (parseInt (String_of (Some (default (Validator.offset b) (VNumber (js "0")))))))
            (tr ++ [Log Info "Processing search request"]) with
    | (inr result, tr') =>
        (inr (Sent (json (JObj [("success", JBool true);
                                ("data", result_json result)]%string))), tr')
    | (inl e, tr') => (inr (NextErr e), tr')
    end.
Proof.
  unfold search, try_catch, bind, log, emit, ret.
  destruct (searchWithFallback _ _ _ _ _ _ _) as [[e|r] tr']; reflexivity.
Qed.

(** The engine calls of one run of [searchWithFallback]: the local one,
    then at most the global one. *)
Lemma searchWithFallback_calls query slug l o tr :
  exists issued,
    snd (searchWithFallback env c query slug l o tr) = tr ++ issued
    /\ (searches issued =
          [SearchCall (LOCAL_INDEX_PREFIX env ++ slug) query (limit_of l) (offset_of o)]
        \/ searches issued =
          [SearchCall (LOCAL_INDEX_PREFIX env ++ slug) query (limit_of l) (offset_of o);
           SearchCall (GLOBAL_INDEX env) query (limit_of l) (offset_of o)]).
Proof.
  destruct (local_hit_or_not (local_outcome env c query slug l o))
    as [(r & Hloc & Hne)|Hno].
  - rewrite (run_local_hit env c _ _ _ _ tr Hloc Hne).
    eexists. split; [reflexivity|]. left. reflexivity.
  - destruct (run_no_local_hit env c query slug l o tr Hno) as (mid & Heq & Hmid).
    rewrite Heq.
    destruct (global_outcome env c query l o); simpl;
      (eexists; split; [reflexivity|]; right;
       unfold searches in *; rewrite filter_app, Hmid; reflexivity).
Qed.

(** The route after the rules have run: on to the controller with the
    sanitized body, or a 400 answer with the errors and nothing else done. *)
Lemma post_search_run (b : Body) (tr : Trace) :
  post_search env c b tr =
    match snd (validationResult b) with
    | [] => search env c (sanitized b) tr
    | errors =>
        (inr (Sent (mkHttp 400
                      (JObj [("success", JBool false);
                             ("errors", JArr (map error_entry errors))]%string))),
         tr)
    end.
Proof.
  unfold post_search. rewrite validationResult_explicit. simpl snd.
  destruct (query_errors _ ++ _) as [|e errors]; reflexivity.
Qed.


(** C10: for an accepted request the controller reads the body the
    sanitizers rewrote: the engine is called with the trimmed query, the
    local index is named after the trimmed slug, and the result echoes the
    trimmed query. *)
Theorem trimmed_fields_reach_engine (b : Body) (tr : Trace) :
  accepted b ->
  exists q s outcome issued,
    Validator.query b = Some (VString q)
    /\ Validator.slug b = Some (VString s)
    /\ post_search env c b tr = (outcome, tr ++ issued)
    /\ (searches issued =
          [SearchCall (LOCAL_INDEX_PREFIX env ++ JsString.trim s) (JsString.trim q)
                      (forwarded_limit b) (forwarded_offset b)]
        \/ searches issued =
          [SearchCall (LOCAL_INDEX_PREFIX env ++ JsString.trim s) (JsString.trim q)
                      (forwarded_limit b) (forwarded_offset b);
           SearchCall (GLOBAL_INDEX env) (JsString.trim q)
                      (forwarded_limit b) (forwarded_offset b)])
    /\ (forall response, outcome = inr (Sent response) ->
        exists result,
          response = json (JObj [("success", JBool true);
                                 ("data", result_json result)]%string)
          /\ res_query result = JsString.trim q
          /\ (source result = Local ->
              indexName result = LOCAL_INDEX_PREFIX env ++ JsString.trim s)).
Proof.
  intros Hacc.
  pose proof (proj2 (no_error_spec b) Hacc) as Hnil.
  destruct Hacc as ((q & Hq & _) & (s & Hs & _) & _ & _).
  rewrite post_search_run, Hnil, search_run.
  unfold sanitized. cbn [Validator.query Validator.slug Validator.limit Validator.offset].
  fold (forwarded_limit b) (forwarded_offset b).
  rewrite Hq, Hs. cbn [toString String_of].
  set (l := Some (forwarded_limit b)). set (o := Some (forwarded_offset b)).
  set (tr0 := tr ++ [Log Info "Processing search request"]).
  destruct (searchWithFallback_calls (JsString.trim q) (JsString.trim s) l o tr0)
    as (issued & Htr & Hcalls).
  change (limit_of l) with (forwarded_limit b) in Hcalls.
  change (offset_of o) with (forwarded_offset b) in Hcalls.
  exists q, s.
  destruct (searchWithFallback env c (JsString.trim q) (JsString.trim s) l o tr0)
    as [[e|result] tr'] eqn:Hrun; simpl in Htr; subst tr'.
  - exists (inr (NextErr e)), (Log Info "Processing search request" :: issued).
    split; [reflexivity|]. split; [reflexivity|].
    split; [unfold tr0; rewrite <- app_assoc; reflexivity|].
    split; [exact Hcalls|]. intros response H. discriminate.
  - eexists; exists (Log Info "Processing search request" :: issued).
    split; [reflexivity|]. split; [reflexivity|].
    split; [unfold tr0; rewrite <- app_assoc; reflexivity|].
    split; [exact Hcalls|]. intros response H. inversion H; subst response.
    exists result. split; [reflexivity|].
    destruct (result_shape env c _ _ _ _ tr0 Hrun)
      as [(r & _ & _ & ->)|(_ & g & _ & ->)].
    + split; [reflexivity|]. intros _. reflexivity.
    + split; [reflexivity|]. intros H0. discriminate.
Qed.

End SearchRoute.

(* ===================================================================== *)
(** ** The paging arguments of an accepted request *)
(* ===================================================================== *)

Section PagingReachesEngine.
Import Js Validator Http ValidationSpec HttpSpec.








End PagingReachesEngine.

(* ===================================================================== *)
(** ** Health probe, routes and the error handler *)
(* ===================================================================== *)

Section HttpProperties.
Import Js Eff SearchService Validator Http HttpSpec.

Variable env : Env.
Variable c : Client.
Variable now : jsstring.

(** The run of [healthCheck]: it returns in both cases. *)
Lemma healthCheck_run (tr : Trace) :
  healthCheck c tr =
    match SearchService.health c with
    | inr h =>
        (inr (Healthy h), tr ++ [HealthCall; Log Debug "Meilisearch health check"])
    | inl e =>
        (inr (Unhealthy (message e)),
         tr ++ [HealthCall; Log Err "Meilisearch health check failed"])
    end.
Proof.
  unfold healthCheck, try_catch, bind, await, log, emit, ret.
  destruct (SearchService.health c); simpl; rewrite <- app_assoc; reflexivity.
Qed.

(** The run of the [try] block of the health handler. *)
Lemma health_try_run (tr : Trace) :
  health_try c now tr =
    match SearchService.health c with
    | inr h =>
        (inr (healthy_response now h),
         tr ++ [HealthCall; Log Debug "Meilisearch health check"])
    | inl e =>
        (inr (unhealthy_response now (message e)),
         tr ++ [HealthCall; Log Err "Meilisearch health check failed"])
    end.
Proof.
  unfold health_try, bind. rewrite healthCheck_run.
  destruct (SearchService.health c); reflexivity.
Qed.

(** C9: [healthCheck] returns for every outcome of the engine's health
    call, with one of its two shapes, and never throws; so the [try] block
    of the HTTP health handler never throws either and its [catch] block
    is not reached. *)
Theorem healthCheck_total (tr : Trace) :
  exists hs issued response,
    healthCheck c tr = (inr hs, tr ++ issued)
    /\ hs = match SearchService.health c with
            | inr h => Healthy h
            | inl e => Unhealthy (message e)
            end
    /\ health_try c now tr = (inr response, tr ++ issued)
    /\ Http.health c now tr = (inr response, tr ++ issued)
    /\ existsb (fun ev => match ev with
                          | Log Err "Health check failed" => true
                          | _ => false
                          end) issued = false.
Proof.
  unfold Http.health, try_catch.
  rewrite health_try_run, healthCheck_run.
  destruct (SearchService.health c) as [e|h];
    eexists; eexists; eexists; repeat split.
Qed.

(** The health route under a mount point. *)
Lemma health_route_run (b : Body) (tr : Trace) :
  app env c now (mkRequest GET ["api"; "v1"; "health"]%string b) tr =
    match SearchService.health c with
    | inr h =>
        (inr (healthy_response now h),
         tr ++ [Log Info "Incoming request"; HealthCall;
                Log Debug "Meilisearch health check"])
    | inl e =>
        (inr (unhealthy_response now (message e)),
         tr ++ [Log Info "Incoming request"; HealthCall;
                Log Err "Meilisearch health check failed"])
    end.
Proof.
  unfold app, bind, log, emit. simpl.
  unfold finish, bind, Http.health, try_catch. rewrite health_try_run.
  destruct (SearchService.health c); simpl; rewrite <- app_assoc; reflexivity.
Qed.

(** C6: [GET /api/v1/health] answers 200 with the healthy envelope when the
    engine reports healthy and 503 with the unhealthy envelope and the error
    message when it fails.  [GET /health] does not reach the probe: the
    router mounted at [/health] has no route for the empty rest of the path,
    and the request is answered 404; under that mount the probe is at
    [/health/health]. *)
Theorem health_routes (b : Body) (tr : Trace) :
  fst (app env c now (mkRequest GET ["api"; "v1"; "health"]%string b) tr)
  = inr (match SearchService.health c with
         | inr h => healthy_response now h
         | inl e => unhealthy_response now (message e)
         end)
  /\ fst (app env c now (mkRequest GET ["health"]%string b) tr)
     = inr (not_found_response (js "/health"))
  /\ fst (app env c now (mkRequest GET ["health"; "health"]%string b) tr)
     = fst (app env c now (mkRequest GET ["api"; "v1"; "health"]%string b) tr).
Proof.
  split; [|split].
  - rewrite health_route_run. destruct (SearchService.health c); reflexivity.
  - reflexivity.
  - rewrite health_route_run.
    unfold app, bind, log, emit. simpl.
    unfold finish, bind, Http.health, try_catch. rewrite health_try_run.
    destruct (SearchService.health c); reflexivity.
Qed.

(** The run of the error handler. *)
Lemma errorHandler_run (err : Error) (tr : Trace) :
  errorHandler env err tr =
    (inr (mkHttp (or_num (or_opt (statusCode err) (status err)) 500)
                 (if production env then generic_error_body
                  else detailed_error_body err)),
     tr ++ [Log Err "Error processing request"]).
Proof.
  unfold errorHandler, bind, log, emit, ret. simpl.
  destruct (production env); reflexivity.
Qed.


End HttpProperties.

(* ===================================================================== *)
(** ** The HTTP interface on concrete requests *)
(* ===================================================================== *)

Section HttpExamples.
Import Js Eff SearchService Validator Http Spec ValidationSpec HttpSpec Fixtures.



(** The boundaries of the paging parameters. *)
Example paging_boundaries :
  snd (validationResult (with_paging (number "1") (number "0"))) = []
  /\ snd (validationResult (with_paging (number "100") None)) = []
  /\ snd (validationResult (with_paging (str "100") (str "0"))) = []
  /\ snd (validationResult (with_paging (number "0") None))
     = [mkVError "limit" "Limit must be an integer between 1 and 100"]
  /\ snd (validationResult (with_paging (number "101") None))
     = [mkVError "limit" "Limit must be an integer between 1 and 100"]
  /\ snd (validationResult (with_paging None (number "-1")))
     = [mkVError "offset" "Offset must be a non-negative integer"]
  /\ snd (validationResult (with_paging (number "1.5") (Some VNull)))
     = [mkVError "limit" "Limit must be an integer between 1 and 100";
        mkVError "offset" "Offset must be a non-negative integer"].
Proof. repeat split. Qed.

(** Upper case, inner white space and an empty query are rejected. *)
Example rejected_fields :
  snd (validationResult (mkBody (str "   ") (str "Colmado William") None None))
  = [mkVError "query" "Query is required and must be a non-empty string";
     mkVError "slug"
       "Slug must contain only lowercase letters, numbers, hyphens and underscores"].
Proof. reflexivity. Qed.

Lemma padded_body_accepted : accepted padded_body.
Proof. apply no_error_spec. reflexivity. Qed.

(** A padded request: the engine sees the trimmed query and the index of
    the trimmed slug. *)
Lemma trimmed_fields_reach_engine_witness :
  accepted padded_body
  /\ exists q s outcome issued,
      Validator.query padded_body = Some (VString q)
      /\ Validator.slug padded_body = Some (VString s)
      /\ post_search env_default fresh_tenant_engine padded_body []
         = (outcome, [] ++ issued)
      /\ (searches issued =
            [SearchCall (LOCAL_INDEX_PREFIX env_default ++ JsString.trim s)
                        (JsString.trim q)
                        (forwarded_limit padded_body) (forwarded_offset padded_body)]
          \/ searches issued =
            [SearchCall (LOCAL_INDEX_PREFIX env_default ++ JsString.trim s)
                        (JsString.trim q)
                        (forwarded_limit padded_body) (forwarded_offset padded_body);
             SearchCall (GLOBAL_INDEX env_default) (JsString.trim q)
                        (forwarded_limit padded_body) (forwarded_offset padded_body)])
      /\ (forall response, outcome = inr (Sent response) ->
          exists result,
            response = json (JObj [("success", JBool true);
                                   ("data", result_json result)]%string)
            /\ res_query result = JsString.trim q
            /\ (source result = Local ->
                indexName result
                = LOCAL_INDEX_PREFIX env_default ++ JsString.trim s)).
Proof.
  split; [exact padded_body_accepted|].
  apply (trimmed_fields_reach_engine env_default fresh_tenant_engine
           (b := padded_body) [] padded_body_accepted).
Defined.

(** The padded request, run: both calls carry ["detergente ace"], the
    local index is named after ["colmado_william"]. *)
Example padded_request_calls :
  searches (snd (app env_default fresh_tenant_engine (js "2025-01-19T10:30:00.000Z")
                     (search_request padded_body) []))
  = [SearchCall (js "productos_colmado_colmado_william") (js "detergente ace")
                (Int 10) (Int 0);
     SearchCall (js "colmado_inventory") (js "detergente ace") (Int 10) (Int 0)].
Proof. reflexivity. Qed.



(** The probe at [/api/v1/health] with the engine up and down, and the
    request to [/health]. *)
Example health_paths :
  fst (app env_default tenant_engine (js "2025-01-19T10:30:00.000Z")
           (get_request ["api"; "v1"; "health"]%string) [])
  = inr (healthy_response (js "2025-01-19T10:30:00.000Z") (mkHealth (js "available")))
  /\ fst (app env_default engine_down (js "2025-01-19T10:30:00.000Z")
              (get_request ["api"; "v1"; "health"]%string) [])
     = inr (unhealthy_response (js "2025-01-19T10:30:00.000Z") (js "Bad Gateway"))
  /\ app env_default tenant_engine (js "2025-01-19T10:30:00.000Z")
         (get_request ["health"]%string) []
     = (inr (not_found_response (js "/health")),
        [Log Info "Incoming request"; Log Warn "404 Not Found"]).
Proof. repeat split. Qed.

(** The fields of the two health envelopes, read by name. *)
Example health_envelope_fields (now : jsstring) (h : HealthInfo) (error : jsstring) :
  let up := http_body (healthy_response now h) in
  let down := http_body (unhealthy_response now error) in
  prop "success" up = Some (JBool true)
  /\ prop "service" up = Some (JStr (js "search-service"))
  /\ prop "status" up = Some (JStr (js "healthy"))
  /\ prop "meilisearch" up = Some (JObj [("status", JStr (health_status h))]%string)
  /\ prop "timestamp" up = Some (JStr now)
  /\ prop "success" down = Some (JBool false)
  /\ prop "service" down = Some (JStr (js "search-service"))
  /\ prop "status" down = Some (JStr (js "unhealthy"))
  /\ prop "error" down = Some (JStr error)
  /\ prop "timestamp" down = Some (JStr now).
Proof. repeat split. Qed.

End HttpExamples.

(* ===================================================================== *)
(** ** The fallback decision: what is traced, and what is consulted *)
(* ===================================================================== *)

Section FallbackTrace.
Import Js Eff SearchService Spec Reading.

Variable env : Env.

(** The whole run of [searchWithFallback], by the outcomes of its calls:
    what it returns or throws, and every line and call it traces. *)
Lemma searchWithFallback_trace c query slug l o tr :
  let local_call :=
    SearchCall (LOCAL_INDEX_PREFIX env ++ slug) query (limit_of l) (offset_of o) in
  let global_call :=
    SearchCall (GLOBAL_INDEX env) query (limit_of l) (offset_of o) in
  let fallback_note :=
    match local_outcome env c query slug l o with
    | inl _ => [Log Warn "Local index search failed, falling back to global"]
    | inr _ => [Log Info "Local search completed";
                Log Info "No results in local index, falling back to global"]
    end in
  searchWithFallback env c query slug l o tr =
    match local_outcome env c query slug l o with
    | inr (mkResponse (_ :: _) _ _ as r) =>
        (inr (local_result env query slug l o r),
         tr ++ [Log Info "Search request"; local_call;
                Log Info "Local search completed"])
    | _ =>
        match global_outcome env c query l o with
        | inr g =>
            (inr (global_result env query l o g),
             tr ++ Log Info "Search request" :: local_call :: fallback_note
                ++ [global_call; Log Info "Global search completed"])
        | inl e =>
            (inl e,
             tr ++ Log Info "Search request" :: local_call :: fallback_note
                ++ [global_call; Log Err "Search failed"])
        end
    end.
Proof.
  cbv zeta. unfold local_outcome, global_outcome.
  unfold searchWithFallback, searchLocal, searchGlobal, index_search, try_catch,
    bind, log, emit, await, ret, throw.
  fold (limit_of l) (offset_of o).
  destruct (search_index c (LOCAL_INDEX_PREFIX env ++ slug) query
              (limit_of l) (offset_of o)) as [e|[[|h hs] est ms]].
  - destruct (search_index c (GLOBAL_INDEX env) query (limit_of l) (offset_of o));
      simpl; rewrite <- !app_assoc; reflexivity.
  - destruct (search_index c (GLOBAL_INDEX env) query (limit_of l) (offset_of o));
      simpl; rewrite <- !app_assoc; reflexivity.
  - simpl. rewrite <- !app_assoc. reflexivity.
Qed.

(** X4: a tenant's request reads two indexes only: engines that answer alike on
    the tenant's own index and on the global index give the same run (the
    same result or failure, the same log lines and calls), whatever any
    other index holds. *)
Theorem only_own_and_global_index_matter c1 c2 query slug l o tr :
  local_outcome env c1 query slug l o = local_outcome env c2 query slug l o ->
  global_outcome env c1 query l o = global_outcome env c2 query l o ->
  searchWithFallback env c1 query slug l o tr
  = searchWithFallback env c2 query slug l o tr.
Proof.
  intros Hl Hg. rewrite !searchWithFallback_trace. cbv zeta.
  rewrite Hl, Hg. reflexivity.
Qed.

Ltac decide_in :=
  repeat match goal with
         | |- _ <-> _ => split; intros
         | H : In _ _ |- _ => simpl in H
         | H : _ \/ _ |- _ => destruct H
         | H : _ /\ _ |- _ => destruct H
         | H : exists _, _ |- _ => destruct H
         | H : False |- _ => contradiction
         | H : Log _ _ = Log _ _ |- _ => discriminate H
         | H : SearchCall _ _ _ _ = Log _ _ |- _ => discriminate H
         | H : inl _ = inr _ |- _ => discriminate H
         | H : inr _ = inl _ |- _ => discriminate H
         | H : inr _ = inr _ |- _ => inversion H; clear H; subst
         | H : hits _ = [] |- _ => simpl in H; discriminate H
         end.

(** X5: the log tells what happened: the warning about the local index is
    written exactly when the local call failed, the note about an empty
    local answer exactly when it succeeded without a hit, and the error
    line exactly when the function throws. *)
Theorem fallback_log_tells_the_path c query slug l o tr :
  exists outcome issued,
    searchWithFallback env c query slug l o tr = (outcome, tr ++ issued)
    /\ (In (Log Warn "Local index search failed, falling back to global") issued
        <-> exists e, local_outcome env c query slug l o = inl e)
    /\ (In (Log Info "No results in local index, falling back to global") issued
        <-> exists r, local_outcome env c query slug l o = inr r /\ hits r = [])
    /\ (In (Log Err "Search failed") issued <-> exists e, outcome = inl e).
Proof.
  rewrite searchWithFallback_trace. cbv zeta.
  destruct (local_outcome env c query slug l o) as [e|[[|h hs] est ms]];
    [destruct (global_outcome env c query l o) as [e'|g]
    |destruct (global_outcome env c query l o) as [e'|g]
    |];
    eexists; eexists; (split; [reflexivity|]);
    repeat split; intros; decide_in;
    try (simpl; tauto); try (eexists; reflexivity);
    try (eexists; split; reflexivity).
Qed.

(** X6: a result tells the truth about the calls behind it: every call of the
    run carried the query, limit and offset the result echoes (20 and 0
    when not given), and the index the result names is the one called
    last. *)
Theorem result_echoes_the_calls c query slug l o tr res tr' :
  searchWithFallback env c query slug l o tr = (inr res, tr') ->
  exists issued,
    tr' = tr ++ issued
    /\ Forall (fun ev => call_query ev = res_query res
                         /\ call_limit ev = res_limit res
                         /\ call_offset ev = res_offset res)
              (searches issued)
    /\ call_index (last (searches issued) HealthCall) = indexName res
    /\ res_limit res = default l (Int 20)
    /\ res_offset res = default o (Int 0).
Proof.
  rewrite searchWithFallback_trace. cbv zeta.
  destruct (local_outcome env c query slug l o) as [e|[[|h hs] est ms]];
    [destruct (global_outcome env c query l o) as [e'|g]
    |destruct (global_outcome env c query l o) as [e'|g]
    |];
    intros H; inversion H; subst; clear H;
    eexists; (split; [reflexivity|]); simpl;
    repeat split; repeat constructor.
Qed.

End FallbackTrace.

(* ===================================================================== *)
(** ** Routing: what is served, and every request is answered *)
(* ===================================================================== *)

Section Routing.
Import Js Eff SearchService Validator Http Spec ValidationSpec HttpSpec Reading.
Local Open Scope eff_scope.

Variable env : Env.
Variable c : Client.
Variable now : jsstring.



Local Opaque String.eqb.

(** The application, after its request log line. *)
Lemma app_run (req : Request) (tr : Trace) :
  app env c now req tr =
    let tr1 := tr ++ [Log Info "Incoming request"] in
    match req_method req, req_path req with
    | GET, [] => (inr banner, tr1)
    | _, _ =>
        match use_routes env c now ["api"; "v1"]%string req with
        | Some h => finish env h tr1
        | None =>
            match use_routes env c now ["health"%string] req with
            | Some h => finish env h tr1
            | None => notFoundHandler (req_path req) tr1
            end
        end
    end.
Proof.
  destruct req as [m path b]. unfold app, bind, log, emit. simpl.
  destruct m, path; try reflexivity;
    repeat match goal with
           | |- context [match use_routes ?e ?cl ?n ?mt ?r with _ => _ end] =>
               destruct (use_routes e cl n mt r)
           end; reflexivity.
Qed.






(** X2: the router is mounted twice, so each of its routes is served under
    [/health] as it is under [/api/v1]: the search at [/health/search],
    the probe at [/health/health]. *)
Theorem both_mounts_serve_the_routes (m : Method) (rest : list string)
        (b : Body) (h : M Handled) (tr : Trace) :
  routes env c now m rest b = Some h ->
  app env c now (mkRequest m ("health"%string :: rest) b) tr
    = finish env h (tr ++ [Log Info "Incoming request"])
  /\ app env c now (mkRequest m ("api"%string :: "v1"%string :: rest) b) tr
     = finish env h (tr ++ [Log Info "Incoming request"]).
Proof.
  intros Hr. rewrite !app_run. cbv zeta. unfold use_routes.
  cbn [req_method req_path req_body below].
  assert (Hne : String.eqb "api" "health" = false)
    by (apply String.eqb_neq; discriminate).
  rewrite !String.eqb_refl, Hne, Hr.
  destruct m; split; reflexivity.
Qed.

Local Transparent String.eqb.

End Routing.

(* ===================================================================== *)
(** ** What an accepted request sends to the engine *)
(* ===================================================================== *)

Section TrimProperties.
Import JsString.

Lemma drop_while_head (p : N -> bool) (s : t) :
  match drop_while p s with
  | [] => True
  | c :: _ => p c = false
  end.
Proof.
  induction s as [|c s IH]; simpl; [exact I|].
  destruct (p c) eqn:E; [exact IH|exact E].
Qed.

Lemma drop_while_fixed (p : N -> bool) (s : t) :
  match s with [] => True | c :: _ => p c = false end ->
  drop_while p s = s.
Proof. destruct s as [|c s]; simpl; [reflexivity|]. intros ->. reflexivity. Qed.

Lemma drop_while_idempotent (p : N -> bool) (s : t) :
  drop_while p (drop_while p s) = drop_while p s.
Proof. apply drop_while_fixed. apply drop_while_head. Qed.

Lemma drop_while_split (p : N -> bool) (s : t) :
  exists dropped, s = dropped ++ drop_while p s.
Proof.
  induction s as [|c s [d IH]]; simpl; [exists []; reflexivity|].
  destruct (p c).
  - exists (c :: d). simpl. f_equal. exact IH.
  - exists []. reflexivity.
Qed.

(** [rtrim] keeps a prefix. *)
Lemma rtrim_prefix (s : t) : exists dropped, s = rtrim s ++ dropped.
Proof.
  unfold rtrim. destruct (drop_while_split is_space (rev s)) as [d H].
  exists (rev d). rewrite <- rev_app_distr, <- H, rev_involutive. reflexivity.
Qed.

Lemma rtrim_last (s : t) : rtrim s <> [] -> is_space (last (rtrim s) 0%N) = false.
Proof.
  unfold rtrim. pose proof (drop_while_head is_space (rev s)) as H.
  destruct (drop_while is_space (rev s)) as [|c r]; [intros Hne; contradiction Hne; reflexivity|].
  intros _. simpl. rewrite last_last. exact H.
Qed.

Lemma trim_head (s : t) : trim s <> [] -> is_space (hd 0%N (trim s)) = false.
Proof.
  unfold trim. intros Hne.
  destruct (rtrim_prefix (ltrim s)) as [d Hd].
  pose proof (drop_while_head is_space s) as Hh. fold (ltrim s) in Hh.
  destruct (rtrim (ltrim s)) as [|c r]; [contradiction Hne; reflexivity|].
  rewrite Hd in Hh. simpl in Hh |- *. exact Hh.
Qed.

(** What [trim] returns has no white space at either end. *)
Lemma trim_tidy (s : t) : trim s <> [] -> Reading.tidy (trim s).
Proof.
  intros Hne. split; [exact Hne|]. split; [apply trim_head; exact Hne|].
  apply rtrim_last. exact Hne.
Qed.

(** Trimming twice is trimming once. *)
Lemma trim_idempotent (s : t) : trim (trim s) = trim s.
Proof.
  assert (Hl : ltrim (trim s) = trim s).
  { apply drop_while_fixed.
    destruct (trim s) as [|c r] eqn:E; [exact I|].
    assert (Hne : trim s <> []) by (rewrite E; discriminate).
    pose proof (@trim_head s Hne) as H. rewrite E in H. exact H. }
  unfold trim at 1. rewrite Hl. unfold trim, rtrim.
  rewrite rev_involutive, drop_while_idempotent. reflexivity.
Qed.

End TrimProperties.

Section AcceptedRequests.
Import Js Eff SearchService Validator Http Spec ValidationSpec HttpSpec Reading.

Variable env : Env.
Variable c : Client.
Variable now : jsstring.

(** The search route of the application, after its request log line. *)
Lemma search_route_run (b : Body) (tr : Trace) :
  app env c now (search_request b) tr
  = finish env (post_search env c b) (tr ++ [Log Info "Incoming request"]).
Proof. reflexivity. Qed.

(** The engine calls behind the answer to an accepted request: the local
    one with the trimmed fields, then at most the global one. *)
Lemma accepted_request_calls (b : Body) (tr : Trace) :
  accepted b ->
  exists q s response issued,
    Validator.query b = Some (VString q)
    /\ Validator.slug b = Some (VString s)
    /\ app env c now (search_request b) tr = (inr response, tr ++ issued)
    /\ (searches issued =
          [SearchCall (LOCAL_INDEX_PREFIX env ++ JsString.trim s) (JsString.trim q)
                      (forwarded_limit b) (forwarded_offset b)]
        \/ searches issued =
          [SearchCall (LOCAL_INDEX_PREFIX env ++ JsString.trim s) (JsString.trim q)
                      (forwarded_limit b) (forwarded_offset b);
           SearchCall (GLOBAL_INDEX env) (JsString.trim q)
                      (forwarded_limit b) (forwarded_offset b)]).
Proof.
  intros Hacc.
  pose proof (proj2 (no_error_spec b) Hacc) as Hnil.
  destruct Hacc as ((q & Hq & _) & (s & Hs & _) & _ & _).
  rewrite search_route_run. unfold finish, Eff.bind.
  rewrite post_search_run, Hnil, search_run.
  unfold sanitized. cbn [Validator.query Validator.slug Validator.limit Validator.offset].
  fold (forwarded_limit b) (forwarded_offset b).
  rewrite Hq, Hs. cbn [toString String_of].
  set (l := Some (forwarded_limit b)). set (o := Some (forwarded_offset b)).
  set (tr0 := (tr ++ [Log Info "Incoming request"])
                ++ [Log Info "Processing search request"]).
  destruct (searchWithFallback_calls env c (JsString.trim q) (JsString.trim s) l o tr0)
    as (issued & Htr & Hcalls).
  change (limit_of l) with (forwarded_limit b) in Hcalls.
  change (offset_of o) with (forwarded_offset b) in Hcalls.
  exists q, s.
  destruct (searchWithFallback env c (JsString.trim q) (JsString.trim s) l o tr0)
    as [[e|result] tr'] eqn:Hrun; simpl in Htr; subst tr'.
  - rewrite errorHandler_run. eexists.
    exists (Log Info "Incoming request" :: Log Info "Processing search request"
              :: issued ++ [Log Err "Error processing request"]).
    split; [reflexivity|]. split; [reflexivity|]. split.
    + unfold tr0. rewrite <- !app_assoc. reflexivity.
    + unfold searches in *. simpl. rewrite filter_app. simpl.
      rewrite app_nil_r. exact Hcalls.
  - eexists.
    exists (Log Info "Incoming request" :: Log Info "Processing search request"
              :: issued).
    split; [reflexivity|]. split; [reflexivity|]. split.
    + unfold tr0, Eff.ret. rewrite <- !app_assoc. reflexivity.
    + exact Hcalls.
Qed.

(** X7: an accepted request reaches one tenant index, named by the prefix and
    a slug of the class [[a-z0-9_-]+], and after it at most the global
    index: no other index name can be formed through the API. *)
Theorem accepted_request_index_names (b : Body) (tr : Trace) :
  accepted b ->
  exists response issued,
    app env c now (search_request b) tr = (inr response, tr ++ issued)
    /\ tenant_index env (call_index (hd HealthCall (searches issued)))
    /\ Forall (fun ev => call_index ev = GLOBAL_INDEX env)
              (tl (searches issued))
    /\ (1 <= List.length (searches issued) <= 2)%nat.
Proof.
  intros Hacc.
  destruct (accepted_request_calls tr Hacc)
    as (q & s & response & issued & Hq & Hs & Hrun & Hcalls).
  destruct Hacc as (_ & (s' & Hs' & Hne & Hall) & _ & _).
  rewrite Hs in Hs'. inversion Hs'; subst s'.
  exists response, issued. split; [exact Hrun|].
  assert (Ht : tenant_index env (LOCAL_INDEX_PREFIX env ++ JsString.trim s))
    by (exists (JsString.trim s); repeat split; assumption).
  destruct Hcalls as [-> | ->]; simpl; repeat split; try exact Ht;
    repeat constructor.
Qed.

(** X8: the query an accepted request sends to the engine is never empty and
    has no white space at either end. *)
Theorem accepted_request_query_tidy (b : Body) (tr : Trace) :
  accepted b ->
  exists response issued,
    app env c now (search_request b) tr = (inr response, tr ++ issued)
    /\ Forall (fun ev => tidy (call_query ev)) (searches issued).
Proof.
  intros Hacc.
  destruct (accepted_request_calls tr Hacc)
    as (q & s & response & issued & Hq & Hs & Hrun & Hcalls).
  destruct Hacc as ((q' & Hq' & Hne) & _).
  rewrite Hq in Hq'. inversion Hq'; subst q'.
  exists response, issued. split; [exact Hrun|].
  pose proof (@trim_tidy q Hne) as Ht.
  destruct Hcalls as [-> | ->];
    repeat (apply Forall_cons; [exact Ht|]); apply Forall_nil.
Qed.


End AcceptedRequests.

Section Revalidation.
Import Js Validator ValidationSpec.

Lemma sanitized_idempotent (b : Body) : sanitized (sanitized b) = sanitized b.
Proof.
  unfold sanitized. cbn [query slug limit offset toString].
  rewrite !trim_idempotent. reflexivity.
Qed.

Lemma sanitized_accepted (b : Body) : accepted b -> accepted (sanitized b).
Proof.
  intros ((q & Hq & Hqne) & (s & Hs & Hsne & Hsall) & Hl & Ho).
  unfold accepted, sanitized. cbn [query slug limit offset].
  rewrite Hq, Hs. cbn [toString].
  split; [|split; [|split; assumption]].
  - exists (JsString.trim q). rewrite trim_idempotent. split; [reflexivity|assumption].
  - exists (JsString.trim s). rewrite trim_idempotent. repeat split; assumption.
Qed.

(** X10: validation is stable: the body the rules leave behind is left as it
    is by a second pass, and if the first pass accepted, so does the
    second. *)
Theorem revalidation_is_stable (b : Body) :
  fst (validationResult (fst (validationResult b))) = fst (validationResult b)
  /\ (snd (validationResult b) = [] ->
      snd (validationResult (fst (validationResult b))) = []).
Proof.
  assert (Hb : fst (validationResult b) = sanitized b)
    by (rewrite validationResult_explicit; reflexivity).
  rewrite Hb. split.
  - rewrite validationResult_explicit. apply sanitized_idempotent.
  - intros H. apply no_error_spec. apply sanitized_accepted.
    apply no_error_spec. exact H.
Qed.

End Revalidation.

(* ===================================================================== *)
(** ** Start-up: the engine client and its options *)
(* ===================================================================== *)

Section StartUp.
Import Js Eff Config ValidationSpec.

Variable Client : Type.
Variable MeiliSearch : ClientOptions -> Error + Client.
Variable stack_here : jsstring.

(** X11: without a key, unset or empty, the module throws its own error after
    one error line, whatever the constructor would do and whatever the
    other variables hold; with a key the constructor gets that key, the
    host or its default, and the timeout, and its failure is the module's. *)
Theorem startup_needs_the_key (env : ProcessEnv) (tr : Trace) :
  (MEILISEARCH_API_KEY env = None \/ MEILISEARCH_API_KEY env = Some [] ->
   client MeiliSearch stack_here env tr
   = (inl (mkError (js "MEILISEARCH_API_KEY is required") stack_here None None),
      tr ++ [Log Err "MEILISEARCH_API_KEY is not defined in environment variables"]))
  /\ (forall key, MEILISEARCH_API_KEY env = Some key -> key <> [] ->
      client MeiliSearch stack_here env tr
      = match MeiliSearch
                {| host := or_str (MEILISEARCH_HOST env) (js "https://melisearch.onrpa.com");
                   apiKey := key;
                   timeout := request_timeout env |} with
        | inr made =>
            (inr made, tr ++ [Log Info "Meilisearch client configured for host"])
        | inl e => (inl e, tr)
        end).
Proof.
  unfold client, bind, log, emit, throw, ret, lift. split.
  - intros [-> | ->]; reflexivity.
  - intros key -> Hne. destruct key as [|k key]; [contradiction|].
    destruct (MeiliSearch _); reflexivity.
Qed.


End StartUp.

(* ===================================================================== *)
(** ** The later properties on concrete inputs *)
(* ===================================================================== *)

Section MoreExamples.
Import Js Eff SearchService Validator Http Spec ValidationSpec HttpSpec Reading.
Import Fixtures MoreFixtures.

(** Two engines that differ in another tenant's index and in their
    health: the run for this tenant is the same. *)
Lemma only_own_and_global_index_matter_witness :
  local_outcome env_default fresh_tenant_engine (js "detergente ace")
                (js "colmado_william") None None
  = local_outcome env_default other_tenant_engine (js "detergente ace")
                  (js "colmado_william") None None
  /\ global_outcome env_default fresh_tenant_engine (js "detergente ace") None None
     = global_outcome env_default other_tenant_engine (js "detergente ace") None None
  /\ search_index fresh_tenant_engine (js "productos_colmado_colmado_maria")
                  (js "detergente ace") (Int 20) (Int 0)
     <> search_index other_tenant_engine (js "productos_colmado_colmado_maria")
                     (js "detergente ace") (Int 20) (Int 0)
  /\ searchWithFallback env_default fresh_tenant_engine (js "detergente ace")
                        (js "colmado_william") None None []
     = searchWithFallback env_default other_tenant_engine (js "detergente ace")
                          (js "colmado_william") None None [].
Proof.
  split; [reflexivity|]. split; [reflexivity|]. split; [discriminate|].
  apply (@only_own_and_global_index_matter env_default fresh_tenant_engine
           other_tenant_engine (js "detergente ace") (js "colmado_william")
           None None []); reflexivity.
Defined.

(** Both indexes down: the warning, then the error line. *)
Example both_down_log :
  snd (searchWithFallback env_default local_down_engine (js "arroz")
                          (js "colmado_william") None None [])
  = [Log Info "Search request";
     SearchCall william_index (js "arroz") (Int 20) (Int 0);
     Log Warn "Local index search failed, falling back to global";
     SearchCall (js "colmado_inventory") (js "arroz") (Int 20) (Int 0);
     Log Err "Search failed"].
Proof. reflexivity. Qed.

Lemma result_echoes_the_calls_witness :
  exists res tr',
    searchWithFallback env_default fresh_tenant_engine (js "detergente ace")
                       (js "colmado_william") (Some (Int 5)) None []
    = (inr res, tr')
    /\ exists issued,
        tr' = [] ++ issued
        /\ Forall (fun ev => call_query ev = res_query res
                             /\ call_limit ev = res_limit res
                             /\ call_offset ev = res_offset res)
                  (searches issued)
        /\ call_index (last (searches issued) HealthCall) = indexName res
        /\ res_limit res = default (Some (Int 5)) (Int 20)
        /\ res_offset res = default None (Int 0).
Proof.
  eexists; eexists. split; [reflexivity|].
  apply (@result_echoes_the_calls env_default fresh_tenant_engine
           (js "detergente ace") (js "colmado_william") (Some (Int 5)) None []).
  reflexivity.
Defined.


(** The search is served under [/health/search] as well. *)
Lemma both_mounts_serve_the_routes_witness :
  routes env_default tenant_engine clock POST ["search"%string] arroz_body
  = Some (post_search env_default tenant_engine arroz_body)
  /\ app env_default tenant_engine clock
         (mkRequest POST ["health"; "search"]%string arroz_body) []
     = finish env_default (post_search env_default tenant_engine arroz_body)
              ([] ++ [Log Info "Incoming request"])
  /\ app env_default tenant_engine clock
         (mkRequest POST ["api"; "v1"; "search"]%string arroz_body) []
     = finish env_default (post_search env_default tenant_engine arroz_body)
              ([] ++ [Log Info "Incoming request"]).
Proof.
  split; [reflexivity|].
  apply (@both_mounts_serve_the_routes env_default tenant_engine clock POST
           ["search"%string] arroz_body
           (post_search env_default tenant_engine arroz_body) []).
  reflexivity.
Defined.

(** A search posted to [/health/search] is answered with the local hit. *)
Example search_under_health_mount :
  fst (app env_default tenant_engine clock
           (mkRequest POST ["health"; "search"]%string arroz_body) [])
  = fst (app env_default tenant_engine clock (search_request arroz_body) []).
Proof. reflexivity. Qed.

Lemma accepted_request_index_names_witness :
  accepted padded_body
  /\ exists response issued,
      app env_default fresh_tenant_engine clock (search_request padded_body) []
      = (inr response, [] ++ issued)
      /\ tenant_index env_default (call_index (hd HealthCall (searches issued)))
      /\ Forall (fun ev => call_index ev = GLOBAL_INDEX env_default)
                (tl (searches issued))
      /\ (1 <= List.length (searches issued) <= 2)%nat.
Proof.
  split; [exact padded_body_accepted|].
  apply (@accepted_request_index_names env_default fresh_tenant_engine clock
           padded_body [] padded_body_accepted).
Defined.

Lemma accepted_request_query_tidy_witness :
  accepted padded_body
  /\ exists response issued,
      app env_default fresh_tenant_engine clock (search_request padded_body) []
      = (inr response, [] ++ issued)
      /\ Forall (fun ev => tidy (call_query ev)) (searches issued).
Proof.
  split; [exact padded_body_accepted|].
  apply (@accepted_request_query_tidy env_default fresh_tenant_engine clock
           padded_body [] padded_body_accepted).
Defined.


Lemma revalidation_is_stable_witness :
  snd (validationResult padded_body) = []
  /\ snd (validationResult (fst (validationResult padded_body))) = [].
Proof.
  split; [reflexivity|].
  apply (proj2 (revalidation_is_stable padded_body)). reflexivity.
Defined.

(** A number as query is rejected, and the body the rules leave behind
    holds its text as a string: a second pass would accept it. *)
Example number_query_then_text :
  snd (validationResult (mkBody (number "5") (str "colmado_william") None None))
  = [mkVError "query" "Invalid value"]
  /\ validationResult
       (fst (validationResult (mkBody (number "5") (str "colmado_william") None None)))
     = (mkBody (str "5") (str "colmado_william") None None, []).
Proof. split; reflexivity. Qed.

Lemma startup_needs_the_key_witness :
  Config.MEILISEARCH_API_KEY empty_key = Some []
  /\ Config.client keep_options (js "at config/meilisearch.js") empty_key []
     = (inl (mkError (js "MEILISEARCH_API_KEY is required")
                     (js "at config/meilisearch.js") None None),
        [] ++ [Log Err "MEILISEARCH_API_KEY is not defined in environment variables"]).
Proof.
  split; [reflexivity|].
  apply (proj1 (startup_needs_the_key keep_options (js "at config/meilisearch.js")
                  empty_key [])).
  right. reflexivity.
Defined.

(** With the key alone the client gets the default host and 5000 ms. *)
Example key_only_options :
  fst (Config.client keep_options (js "at config/meilisearch.js") key_only [])
  = inr (Config.mkOptions (js "https://melisearch.onrpa.com") (js "masterKey")
                          (Int 5000)).
Proof. reflexivity. Qed.


(** [parseInt] reads the number before a unit, takes zero and text that
    starts with no digit as absent, and lets a negative number through. *)
Example timeout_edges :
  Config.request_timeout timeout_with_unit = Int 3000
  /\ Config.request_timeout (Config.mkProcessEnv None None (Some (js "0"))) = Int 5000
  /\ Config.request_timeout (Config.mkProcessEnv None None (Some (js "fast"))) = Int 5000
  /\ Config.request_timeout (Config.mkProcessEnv None None (Some (js "-1"))) = Int (-1).
Proof. repeat split. Qed.

(** A set variable is used as it is, an unset or empty one gives way to
    the default. *)
Example configured_names :
  GLOBAL_INDEX (mkEnv (Some (js "catalogo")) (Some (js "tienda_")) None)
  = js "catalogo"
  /\ LOCAL_INDEX_PREFIX (mkEnv (Some (js "catalogo")) (Some (js "tienda_")) None)
     = js "tienda_"
  /\ GLOBAL_INDEX (mkEnv (Some []) None None) = js "colmado_inventory"
  /\ LOCAL_INDEX_PREFIX (mkEnv None (Some []) None) = js "productos_colmado_".
Proof. repeat split. Qed.

End MoreExamples.
